(** * Vigorous Power Detector: the relay handlers of [detector_zero.py]

    A shallow embedding of the three GPIO callbacks, of the SNS publisher
    and of the monitoring/teardown part of [main], followed by the
    properties of the per-relay state machine.

    Python globals live in a record [World]; everything a function does to
    the outside (stdout, LED pins, device handles, the SNS client) is
    appended to a chronological trace.  A Python exception is the left
    injection of the result; the world at the point of the raise is kept,
    because module globals survive an exception. *)

From Stdlib Require Import ZArith List String Bool Lia DecimalString.
Import ListNotations.
Local Open Scope string_scope.
Local Open Scope list_scope.
Local Open Scope Z_scope.

(** ** Module-level constants *)

Definition PROJECT : string := "Vigorous Power Detector".
Definition ENVIRONMENT : string := "dev".
Definition TOPIC_NAME : string := "VigorousPowerDetector".
Definition AWS_ACCOUNT_ID : string := "<GET_YOUR_OWN_AWS_ACCOUNT>".
Definition TOPIC_ARN : string :=
  "arn:aws:sns:us-east-2:" ++ AWS_ACCOUNT_ID ++ ":" ++ TOPIC_NAME.
Definition PROFILE_NAME : string := "Starlight".

Definition R1_ENABLED : bool := true.
Definition R2_ENABLED : bool := true.
Definition R3_ENABLED : bool := false.
Definition R1_NAME : string := "Sump Pump Relay".
Definition R2_NAME : string := "Small Fridge Relay".
Definition R3_NAME : string := "Garage Fridge Relay".

(** The two switches [SNS_ENABLE] and [LOG_GHOSTS] are module constants of
    the script; they are kept as a record so that both settings of each
    can be studied.  [source_flags] is what the file ships with. *)
Record Flags : Type := mkFlags {
  SNS_ENABLE : bool;
  LOG_GHOSTS : bool
}.

Definition source_flags : Flags :=
  {| SNS_ENABLE := true; LOG_GHOSTS := false |}.

(** ** Devices *)

Inductive Relay : Type := R1_RELAY | R2_RELAY | R3_RELAY.

Inductive Led : Type :=
  | R1_RED_LED | R1_GREEN_LED
  | R2_RED_LED | R2_GREEN_LED
  | R3_RED_LED | R3_GREEN_LED.

Inductive Device : Type :=
  | ButtonDev (b : Relay)
  | LedDev (l : Led).

(** What a callback receives: the gpiozero [Button], of which the handler
    reads [.value].  The BCM pin is carried along for identification. *)
Record Button : Type := mkButton {
  pin : Z;
  value : Z
}.

Definition relay_pin (b : Relay) : Z :=
  match b with R1_RELAY => 25 | R2_RELAY => 5 | R3_RELAY => 6 end.

Definition button_of (b : Relay) (level : Z) : Button :=
  {| pin := relay_pin b; value := level |}.

(** ** Exceptions *)

(** [KeyboardInterrupt] and [SystemExit] derive from [BaseException] and
    are not caught by [except Exception]; everything else that matters
    here is an [Exception] with its message. *)
Inductive exn : Type :=
  | KeyboardInterrupt
  | SystemExit
  | Exception (msg : string).

(** ** The SNS request and the outside world *)

(** The seven entries of [msg_attrs]; every one has DataType 'String'. *)
Record MsgAttrs : Type := mkAttrs {
  eventTime : string;
  relayName : string;
  status : string;
  description : string;
  pinState : string;
  environment : string;
  hostname : string
}.

Record SnsRequest : Type := mkRequest {
  TopicArn : string;
  Message : string;
  MessageAttributes : MsgAttrs
}.

(** What the process cannot decide by itself: the host name, what
    [datetime.now()] answers at its n-th reading, and what the session /
    client / publish chain of boto3 does with a request: an exception, or
    the HTTP status code of the response. *)
Record Env : Type := mkEnv {
  HOSTNAME : string;
  clock : nat -> string;
  sns_publish : SnsRequest -> exn + Z
}.

(** Lines written to stdout, kept field by field. *)
Inductive Line : Type :=
  | EventLine (mark event_time status name description : string)
              (pin_state : Z) (host env : string)
  | SendingLine (event_time relay_name topic : string)
  | ResponseLine (event_time : string) (code : Z)
  | HeaderLine (note : string)
  | TextLine (text : string).

(** The chronological record of effects.  [CallPublish] is a ghost mark
    left on entry of [publish_sns_alert]; it is how "the dispatcher was
    invoked" is observed even when [SNS_ENABLE] is off. *)
Inductive Effect : Type :=
  | Stdout (l : Line)
  | LedWrite (l : Led) (on : bool)
  | SnsPublish (rq : SnsRequest)
  | Close (d : Device)
  | CallPublish (relay_name status description : string) (pin_state : Z).

Record World : Type := mkWorld {
  R1_LAST_STATE : Z;
  R2_LAST_STATE : Z;
  R3_LAST_STATE : Z;
  ticks : nat;
  trace : list Effect
}.

(** The state right after the module has been loaded: every
    [Rn_LAST_STATE] is 2 and each LED has been switched off once, in
    source order. *)
Definition initial_world : World :=
  {| R1_LAST_STATE := 2; R2_LAST_STATE := 2; R3_LAST_STATE := 2;
     ticks := 0%nat;
     trace := [ LedWrite R1_RED_LED false; LedWrite R1_GREEN_LED false;
                LedWrite R2_RED_LED false; LedWrite R2_GREEN_LED false;
                LedWrite R3_RED_LED false; LedWrite R3_GREEN_LED false ] |}.

(** ** A state-and-exception monad *)

Definition M (A : Type) : Type := World -> (exn + A) * World.

Definition ret {A} (a : A) : M A := fun w => (inr a, w).

Definition raise {A} (e : exn) : M A := fun w => (inl e, w).

Definition bind {A B} (m : M A) (k : A -> M B) : M B :=
  fun w =>
    match m w with
    | (inr a, w1) => k a w1
    | (inl e, w1) => (inl e, w1)
    end.

Declare Scope py_scope.
Delimit Scope py_scope with py.
Notation "x <- m ;; k" := (bind m (fun x => k))
  (at level 61, m at next level, right associativity) : py_scope.
Notation "m ;; k" := (bind m (fun _ => k))
  (at level 61, right associativity) : py_scope.
Local Open Scope py_scope.

Definition pass : M unit := ret tt.

(** [try: body  except KeyboardInterrupt: hk  except Exception as ex: hx ex
    finally: fin].  The [finally] suite runs on every way out of the
    [try]; an exception that no clause caught is re-raised after it, and
    an exception of the [finally] suite itself replaces it. *)
Definition try_except_finally
    (body : M unit) (hk : M unit) (hx : string -> M unit) (fin : M unit)
  : M unit :=
  fun w =>
    let after_try :=
      match body w with
      | (inr tt, w1) => (inr tt, w1)
      | (inl KeyboardInterrupt, w1) => hk w1
      | (inl (Exception ex), w1) => hx ex w1
      | (inl SystemExit, w1) => (inl SystemExit, w1)
      end in
    match fin (snd after_try) with
    | (inr tt, w2) => (fst after_try, w2)
    | (inl e, w2) => (inl e, w2)
    end.

(** ** Primitive actions *)

Definition emit (e : Effect) : M unit :=
  fun w => (inr tt,
            {| R1_LAST_STATE := R1_LAST_STATE w;
               R2_LAST_STATE := R2_LAST_STATE w;
               R3_LAST_STATE := R3_LAST_STATE w;
               ticks := ticks w;
               trace := trace w ++ [e] |}).

Definition print (l : Line) : M unit := emit (Stdout l).
Definition led_on (l : Led) : M unit := emit (LedWrite l true).
Definition led_off (l : Led) : M unit := emit (LedWrite l false).
Definition close (d : Device) : M unit := emit (Close d).

(** [str(datetime.now().isoformat()).replace('T', ' ')] *)
Definition now (env : Env) : M string :=
  fun w => (inr (clock env (ticks w)),
            {| R1_LAST_STATE := R1_LAST_STATE w;
               R2_LAST_STATE := R2_LAST_STATE w;
               R3_LAST_STATE := R3_LAST_STATE w;
               ticks := S (ticks w);
               trace := trace w |}).

Definition get_R1_LAST_STATE : M Z := fun w => (inr (R1_LAST_STATE w), w).
Definition get_R2_LAST_STATE : M Z := fun w => (inr (R2_LAST_STATE w), w).
Definition get_R3_LAST_STATE : M Z := fun w => (inr (R3_LAST_STATE w), w).

Definition set_R1_LAST_STATE (v : Z) : M unit :=
  fun w => (inr tt,
            {| R1_LAST_STATE := v;
               R2_LAST_STATE := R2_LAST_STATE w;
               R3_LAST_STATE := R3_LAST_STATE w;
               ticks := ticks w; trace := trace w |}).

Definition set_R2_LAST_STATE (v : Z) : M unit :=
  fun w => (inr tt,
            {| R1_LAST_STATE := R1_LAST_STATE w;
               R2_LAST_STATE := v;
               R3_LAST_STATE := R3_LAST_STATE w;
               ticks := ticks w; trace := trace w |}).

Definition set_R3_LAST_STATE (v : Z) : M unit :=
  fun w => (inr tt,
            {| R1_LAST_STATE := R1_LAST_STATE w;
               R2_LAST_STATE := R2_LAST_STATE w;
               R3_LAST_STATE := v;
               ticks := ticks w; trace := trace w |}).

(** Python's [str] on an integer. *)
Definition str (z : Z) : string := NilZero.string_of_int (Z.to_int z).

(** [client.publish(...)] together with the session and client set-up that
    precedes it: one call recorded in the trace, answered by the
    environment. *)
Definition client_publish (env : Env) (rq : SnsRequest) : M Z :=
  emit (SnsPublish rq) ;;
  match sns_publish env rq with
  | inr code => ret code
  | inl e => raise e
  end.

(** ** [publish_sns_alert] *)

Definition publish_sns_alert (fl : Flags) (env : Env)
    (event_time relay_name status description : string) (pin_state : Z)
  : M unit :=
  emit (CallPublish relay_name status description pin_state) ;;
  let message := (PROJECT ++ " Notification")%string in
  let msg_attrs :=
    {| eventTime := event_time;
       relayName := relay_name;
       status := status;
       description := description;
       pinState := str pin_state;
       environment := ENVIRONMENT;
       hostname := HOSTNAME env |} in
  event_time <- now env ;;
  if SNS_ENABLE fl then
    print (SendingLine event_time relay_name TOPIC_NAME) ;;
    response <- client_publish env
                  {| TopicArn := TOPIC_ARN;
                     Message := message;
                     MessageAttributes := msg_attrs |} ;;
    print (ResponseLine event_time response)
  else pass.

(** ** The three callbacks

    Each is transcribed on its own, branch by branch.  The two outer [if]
    statements of the source are sequential (the second is not an
    [elif]); the inner chains are [if / elif / elif] without [else].
    [Rn_LAST_STATE] is read once per chain: nothing writes it between the
    tests of one chain. *)

Definition r1_gpio_event_detected (fl : Flags) (env : Env) (channel : Button)
  : M unit :=
  let r1_state := value channel in
  event_time <- now env ;;
  (if r1_state =? 1 then
     let description := "Power is Off" in
     led_off R1_GREEN_LED ;;
     led_on R1_RED_LED ;;
     last <- get_R1_LAST_STATE ;;
     if last =? 0 then
       let status := "Failure" in
       print (EventLine "[!]" event_time status R1_NAME description r1_state
                        (HOSTNAME env) ENVIRONMENT) ;;
       publish_sns_alert fl env event_time R1_NAME status description r1_state ;;
       set_R1_LAST_STATE r1_state
     else if (last =? 1) && LOG_GHOSTS fl then
       let status := "Ghost Trigger" in
       print (EventLine "[-]" event_time status R1_NAME description r1_state
                        (HOSTNAME env) ENVIRONMENT)
     else if last =? 2 then
       let status := "Script Initializing" in
       print (EventLine "[+]" event_time status R1_NAME description r1_state
                        (HOSTNAME env) ENVIRONMENT) ;;
       set_R1_LAST_STATE r1_state
     else pass
   else pass) ;;
  (if r1_state =? 0 then
     let description := "Power is On" in
     led_off R1_RED_LED ;;
     led_on R1_GREEN_LED ;;
     last <- get_R1_LAST_STATE ;;
     if last =? 1 then
       let status := "Success" in
       print (EventLine "[+]" event_time status R1_NAME description r1_state
                        (HOSTNAME env) ENVIRONMENT) ;;
       publish_sns_alert fl env event_time R1_NAME status description r1_state ;;
       set_R1_LAST_STATE r1_state
     else if (last =? 0) && LOG_GHOSTS fl then
       let status := "Ghost Trigger" in
       print (EventLine "[-]" event_time status R1_NAME description r1_state
                        (HOSTNAME env) ENVIRONMENT)
     else if last =? 2 then
       let status := "Script Initializing" in
       print (EventLine "[+]" event_time status R1_NAME description r1_state
                        (HOSTNAME env) ENVIRONMENT) ;;
       set_R1_LAST_STATE r1_state
     else pass
   else pass).

Definition r2_gpio_event_detected (fl : Flags) (env : Env) (channel : Button)
  : M unit :=
  let r2_state := value channel in
  event_time <- now env ;;
  (if r2_state =? 1 then
     let description := "Power is Off" in
     led_off R2_GREEN_LED ;;
     led_on R2_RED_LED ;;
     last <- get_R2_LAST_STATE ;;
     if last =? 0 then
       let status := "Failure" in
       print (EventLine "[!]" event_time status R2_NAME description r2_state
                        (HOSTNAME env) ENVIRONMENT) ;;
       publish_sns_alert fl env event_time R2_NAME status description r2_state ;;
       set_R2_LAST_STATE r2_state
     else if (last =? 1) && LOG_GHOSTS fl then
       let status := "Ghost Trigger" in
       print (EventLine "[-]" event_time status R2_NAME description r2_state
                        (HOSTNAME env) ENVIRONMENT)
     else if last =? 2 then
       let status := "Script Initializing" in
       print (EventLine "[+]" event_time status R2_NAME description r2_state
                        (HOSTNAME env) ENVIRONMENT) ;;
       set_R2_LAST_STATE r2_state
     else pass
   else pass) ;;
  (if r2_state =? 0 then
     let description := "Power is On" in
     led_off R2_RED_LED ;;
     led_on R2_GREEN_LED ;;
     last <- get_R2_LAST_STATE ;;
     if last =? 1 then
       let status := "Success" in
       print (EventLine "[+]" event_time status R2_NAME description r2_state
                        (HOSTNAME env) ENVIRONMENT) ;;
       publish_sns_alert fl env event_time R2_NAME status description r2_state ;;
       set_R2_LAST_STATE r2_state
     else if (last =? 0) && LOG_GHOSTS fl then
       let status := "Ghost Trigger" in
       print (EventLine "[-]" event_time status R2_NAME description r2_state
                        (HOSTNAME env) ENVIRONMENT)
     else if last =? 2 then
       let status := "Script Initializing" in
       print (EventLine "[+]" event_time status R2_NAME description r2_state
                        (HOSTNAME env) ENVIRONMENT) ;;
       set_R2_LAST_STATE r2_state
     else pass
   else pass).

Definition r3_gpio_event_detected (fl : Flags) (env : Env) (channel : Button)
  : M unit :=
  let r3_state := value channel in
  event_time <- now env ;;
  (if r3_state =? 1 then
     let description := "Power is Off" in
     led_off R3_GREEN_LED ;;
     led_on R3_RED_LED ;;
     last <- get_R3_LAST_STATE ;;
     if last =? 0 then
       let status := "Failure" in
       print (EventLine "[!]" event_time status R3_NAME description r3_state
                        (HOSTNAME env) ENVIRONMENT) ;;
       publish_sns_alert fl env event_time R3_NAME status description r3_state ;;
       set_R3_LAST_STATE r3_state
     else if (last =? 1) && LOG_GHOSTS fl then
       let status := "Ghost Trigger" in
       print (EventLine "[-]" event_time status R3_NAME description r3_state
                        (HOSTNAME env) ENVIRONMENT)
     else if last =? 2 then
       let status := "Script Initializing" in
       print (EventLine "[+]" event_time status R3_NAME description r3_state
                        (HOSTNAME env) ENVIRONMENT) ;;
       set_R3_LAST_STATE r3_state
     else pass
   else pass) ;;
  (if r3_state =? 0 then
     let description := "Power is On" in
     led_off R3_RED_LED ;;
     led_on R3_GREEN_LED ;;
     last <- get_R3_LAST_STATE ;;
     if last =? 1 then
       let status := "Success" in
       print (EventLine "[+]" event_time status R3_NAME description r3_state
                        (HOSTNAME env) ENVIRONMENT) ;;
       publish_sns_alert fl env event_time R3_NAME status description r3_state ;;
       set_R3_LAST_STATE r3_state
     else if (last =? 0) && LOG_GHOSTS fl then
       let status := "Ghost Trigger" in
       print (EventLine "[-]" event_time status R3_NAME description r3_state
                        (HOSTNAME env) ENVIRONMENT)
     else if last =? 2 then
       let status := "Script Initializing" in
       print (EventLine "[+]" event_time status R3_NAME description r3_state
                        (HOSTNAME env) ENVIRONMENT) ;;
       set_R3_LAST_STATE r3_state
     else pass
   else pass).

(** ** [main]: start-up check, monitoring, teardown *)

Definition header (note : string) : M unit := print (HeaderLine note).

(** The callback bound to a relay by [main]: [when_held] and
    [when_released] are only assigned under [if Rn_ENABLED]. *)
Definition callback (fl : Flags) (env : Env) (b : Relay)
  : option (Button -> M unit) :=
  match b with
  | R1_RELAY => if R1_ENABLED then Some (r1_gpio_event_detected fl env) else None
  | R2_RELAY => if R2_ENABLED then Some (r2_gpio_event_detected fl env) else None
  | R3_RELAY => if R3_ENABLED then Some (r3_gpio_event_detected fl env) else None
  end.

(** What happens while the main thread sits in [signal.pause()]: gpiozero
    fires the bound callbacks, one edge after the other, on its own
    threads.  An exception of a callback ends that callback only; the
    globals keep what the callback had written before it. *)
Fixpoint fire (fl : Flags) (env : Env) (edges : list (Relay * Z)) (w : World)
  : World :=
  match edges with
  | [] => w
  | (b, level) :: rest =>
      match callback fl env b with
      | Some h => fire fl env rest (snd (h (button_of b level) w))
      | None => fire fl env rest w
      end
  end.

(** [signal.pause()]: the edges seen while waiting, then the way the wait
    ends (a signal handler raising, or a plain return). *)
Definition signal_pause (fl : Flags) (env : Env)
    (edges : list (Relay * Z)) (ending : exn + unit) : M unit :=
  fun w => (ending, fire fl env edges w).

(** The banner and the two information blocks only print; they are kept
    as one line each. *)
Definition main (fl : Flags) (env : Env)
    (level1 level2 level3 : Z)
    (edges : list (Relay * Z)) (ending : exn + unit) : M unit :=
  print (TextLine (PROJECT ++ " v1.4")) ;;
  header "Runtime Environment" ;;
  header "NOTICE" ;;
  header "System Status" ;;
  (if R1_ENABLED then
     print (TextLine ("[+] Checking " ++ R1_NAME ++ " for current state...")) ;;
     r1_gpio_event_detected fl env (button_of R1_RELAY level1)
   else pass) ;;
  (if R2_ENABLED then
     print (TextLine ("[+] Checking " ++ R2_NAME ++ " for current state...")) ;;
     r2_gpio_event_detected fl env (button_of R2_RELAY level2)
   else pass) ;;
  (if R3_ENABLED then
     print (TextLine ("[+] Checking " ++ R3_NAME ++ " for current state...")) ;;
     r3_gpio_event_detected fl env (button_of R3_RELAY level3)
   else pass) ;;
  try_except_finally
    (print (TextLine "") ;;
     header "Monitoring" ;;
     signal_pause fl env edges ending)
    (event_time <- now env ;;
     print (TextLine ("[!] " ++ event_time
                      ++ ", CTRL-C interrupt detected, terminating script...")))
    (fun ex =>
     event_time <- now env ;;
     print (TextLine ("[!] " ++ event_time ++ ", Exception trapped: " ++ ex)))
    (header "Cleaning up GPIO and exiting..." ;;
     close (ButtonDev R1_RELAY) ;;
     close (ButtonDev R2_RELAY) ;;
     close (ButtonDev R3_RELAY) ;;
     close (LedDev R1_RED_LED) ;;
     close (LedDev R2_RED_LED) ;;
     close (LedDev R1_GREEN_LED) ;;
     close (LedDev R2_GREEN_LED)) ;;
  print (TextLine "Elapsed Time") ;;
  print (TextLine "Mission Complete!!").

(** ** One handler per relay, and the per-relay view of the globals *)

Definition gpio_event_detected (fl : Flags) (env : Env) (b : Relay)
  : Button -> M unit :=
  match b with
  | R1_RELAY => r1_gpio_event_detected fl env
  | R2_RELAY => r2_gpio_event_detected fl env
  | R3_RELAY => r3_gpio_event_detected fl env
  end.

Definition LAST_STATE (b : Relay) (w : World) : Z :=
  match b with
  | R1_RELAY => R1_LAST_STATE w
  | R2_RELAY => R2_LAST_STATE w
  | R3_RELAY => R3_LAST_STATE w
  end.

Definition NAME (b : Relay) : string :=
  match b with R1_RELAY => R1_NAME | R2_RELAY => R2_NAME | R3_RELAY => R3_NAME end.

Definition RED_LED (b : Relay) : Led :=
  match b with
  | R1_RELAY => R1_RED_LED | R2_RELAY => R2_RED_LED | R3_RELAY => R3_RED_LED
  end.

Definition GREEN_LED (b : Relay) : Led :=
  match b with
  | R1_RELAY => R1_GREEN_LED | R2_RELAY => R2_GREEN_LED | R3_RELAY => R3_GREEN_LED
  end.

(** A run of observations: each edge is handed to the handler of its
    relay; the outcome of every call is kept, and the globals left by one
    call (returned or raised) are those the next call starts from. *)
Fixpoint observe_all (fl : Flags) (env : Env) (edges : list (Relay * Z))
    (w : World) : list (exn + unit) * World :=
  match edges with
  | [] => ([], w)
  | (b, level) :: rest =>
      let r := gpio_event_detected fl env b (button_of b level) w in
      let rs := observe_all fl env rest (snd r) in
      (fst r :: fst rs, snd rs)
  end.

(** ** Vocabulary of the specification *)

(** The three channel states, as the globals encode them. *)
Definition Initializing : Z := 2.
Definition PowerOn : Z := 0.
Definition PowerOff : Z := 1.

(** The request built for an alert on relay [b]. *)
Definition alert_request (env : Env) (b : Relay)
    (event_time status description : string) (level : Z) : SnsRequest :=
  {| TopicArn := TOPIC_ARN;
     Message := (PROJECT ++ " Notification")%string;
     MessageAttributes :=
       {| eventTime := event_time; relayName := NAME b; status := status;
          description := description; pinState := str level;
          environment := ENVIRONMENT; hostname := HOSTNAME env |} |}.

(** What a stretch of trace contains, kind by kind. *)
Fixpoint dispatched (tr : list Effect) : list (string * string) :=
  match tr with
  | [] => []
  | CallPublish name status _ _ :: rest => (name, status) :: dispatched rest
  | _ :: rest => dispatched rest
  end.

Fixpoint published (tr : list Effect) : list SnsRequest :=
  match tr with
  | [] => []
  | SnsPublish rq :: rest => rq :: published rest
  | _ :: rest => published rest
  end.

Fixpoint led_writes (tr : list Effect) : list (Led * bool) :=
  match tr with
  | [] => []
  | LedWrite l on :: rest => (l, on) :: led_writes rest
  | _ :: rest => led_writes rest
  end.

Fixpoint closed (tr : list Effect) : list Device :=
  match tr with
  | [] => []
  | Close d :: rest => d :: closed rest
  | _ :: rest => closed rest
  end.

(** The status field of the event lines: the classifications that were
    surfaced, in order. *)
Fixpoint classified (tr : list Effect) : list string :=
  match tr with
  | [] => []
  | Stdout (EventLine _ _ status _ _ _ _ _) :: rest => status :: classified rest
  | _ :: rest => classified rest
  end.

Definition Led_eqb (a b : Led) : bool :=
  match a, b with
  | R1_RED_LED, R1_RED_LED | R1_GREEN_LED, R1_GREEN_LED
  | R2_RED_LED, R2_RED_LED | R2_GREEN_LED, R2_GREEN_LED
  | R3_RED_LED, R3_RED_LED | R3_GREEN_LED, R3_GREEN_LED => true
  | _, _ => false
  end.

(** Whether an LED is lit after a trace: its last write. *)
Fixpoint lit_from (l : Led) (acc : bool) (tr : list Effect) : bool :=
  match tr with
  | [] => acc
  | LedWrite l' on :: rest =>
      lit_from l (if Led_eqb l l' then on else acc) rest
  | _ :: rest => lit_from l acc rest
  end.

Definition lit (l : Led) (w : World) : bool := lit_from l false (trace w).

(** The effects added between two worlds of one run. *)
Definition since (w w' : World) : list Effect :=
  List.skipn (List.length (trace w)) (trace w').


(** Environments used in the examples. *)
Definition env_ok : Env :=
  {| HOSTNAME := "raspberrypi";
     clock := fun n => ("t" ++ str (Z.of_nat n))%string;
     sns_publish := fun _ => inr 200 |}.

Definition env_down : Env :=
  {| HOSTNAME := "raspberrypi";
     clock := fun n => ("t" ++ str (Z.of_nat n))%string;
     sns_publish := fun _ => inl (Exception "EndpointConnectionError") |}.

(** ** The handlers as one transition function

    What a call of the handler of relay [b] does, as a function of the
    level read and of the globals; [handler_transition] below proves that
    each of the three transcribed handlers computes exactly this. *)

Definition after (b : Relay) (v : Z) (reads : nat) (es : list Effect)
    (w : World) : World :=
  {| R1_LAST_STATE := match b with R1_RELAY => v | _ => R1_LAST_STATE w end;
     R2_LAST_STATE := match b with R2_RELAY => v | _ => R2_LAST_STATE w end;
     R3_LAST_STATE := match b with R3_RELAY => v | _ => R3_LAST_STATE w end;
     ticks := (reads + ticks w)%nat;
     trace := trace w ++ es |}.

Definition leds_for (b : Relay) (level : Z) : list Effect :=
  if level =? 1
  then [LedWrite (GREEN_LED b) false; LedWrite (RED_LED b) true]
  else [LedWrite (RED_LED b) false; LedWrite (GREEN_LED b) true].

Definition description_for (level : Z) : string :=
  if level =? 1 then "Power is Off" else "Power is On".

Definition transition_status (level : Z) : string :=
  if level =? 1 then "Failure" else "Success".

Definition transition_mark (level : Z) : string :=
  if level =? 1 then "[!]" else "[+]".

Definition event_line (env : Env) (b : Relay) (mark event_time status : string)
    (level : Z) : Effect :=
  Stdout (EventLine mark event_time status (NAME b) (description_for level)
                    level (HOSTNAME env) ENVIRONMENT).

Definition transition (fl : Flags) (env : Env) (b : Relay) (level : Z)
    (w : World) : (exn + unit) * World :=
  let t := clock env (ticks w) in
  let t' := clock env (S (ticks w)) in
  let s := LAST_STATE b w in
  if negb ((level =? 1) || (level =? 0)) then
    (inr tt, after b s 1 [] w)
  else if s =? 2 then
    (inr tt,
     after b level 1
       (leds_for b level ++ [event_line env b "[+]" t "Script Initializing" level]) w)
  else if ((level =? 1) && (s =? 0)) || ((level =? 0) && (s =? 1)) then
    let st := transition_status level in
    let rq := alert_request env b t st (description_for level) level in
    let pre :=
      leds_for b level
      ++ [event_line env b (transition_mark level) t st level;
          CallPublish (NAME b) st (description_for level) level] in
    if SNS_ENABLE fl then
      match sns_publish env rq with
      | inr code =>
          (inr tt,
           after b level 2
             (pre ++ [Stdout (SendingLine t' (NAME b) TOPIC_NAME);
                      SnsPublish rq;
                      Stdout (ResponseLine t' code)]) w)
      | inl e =>
          (inl e,
           after b s 2
             (pre ++ [Stdout (SendingLine t' (NAME b) TOPIC_NAME);
                      SnsPublish rq]) w)
      end
    else (inr tt, after b level 2 pre w)
  else if (((level =? 1) && (s =? 1)) || ((level =? 0) && (s =? 0)))
          && LOG_GHOSTS fl then
    (inr tt,
     after b s 1
       (leds_for b level ++ [event_line env b "[-]" t "Ghost Trigger" level]) w)
  else (inr tt, after b s 1 (leds_for b level) w).

(** ** Definitions used by the statements *)

(** A genuine transition: the level read is the opposite of the stored
    state. *)
Definition genuine (b : Relay) (channel : Button) (w : World) : Prop :=
  (value channel = 1 /\ LAST_STATE b w = PowerOn) \/
  (value channel = 0 /\ LAST_STATE b w = PowerOff).

(** The request that a genuine transition seen in [w] sends. *)
Definition transition_request (env : Env) (b : Relay) (channel : Button)
    (w : World) : SnsRequest :=
  alert_request env b (clock env (ticks w))
    (transition_status (value channel)) (description_for (value channel))
    (value channel).

(** The line a repeated level leaves on stdout: none unless [LOG_GHOSTS]. *)
Definition ghost_lines (fl : Flags) (env : Env) (b : Relay) (t : string)
    (level : Z) : list Effect :=
  if LOG_GHOSTS fl then [event_line env b "[-]" t "Ghost Trigger" level] else [].


(** Worlds used in the examples: relay 1 seen with power on, relay 2 seen
    with power off, both right after start-up. *)
Definition world_r1_on : World :=
  snd (r1_gpio_event_detected source_flags env_ok (button_of R1_RELAY 0)
         initial_world).

Definition world_r2_off : World :=
  snd (r2_gpio_event_detected source_flags env_ok (button_of R2_RELAY 1)
         initial_world).

(** The devices closed by the [finally] suite of [main], in order. *)
Definition teardown_order : list Device :=
  [ButtonDev R1_RELAY; ButtonDev R2_RELAY; ButtonDev R3_RELAY;
   LedDev R1_RED_LED; LedDev R2_RED_LED; LedDev R1_GREEN_LED; LedDev R2_GREEN_LED].

(** [m] adds exactly the closings [ds], whatever its outcome. *)
Definition closes {A : Type} (m : M A) (ds : list Device) : Prop :=
  forall w, closed (trace (snd (m w))) = closed (trace w) ++ ds.

(** The scripted run of the specification: start-up reading 1, then
    1, 0, 0, 1, all on relay [b]. *)
Definition script (b : Relay) : list (Relay * Z) :=
  [(b, 1); (b, 1); (b, 0); (b, 0); (b, 1)].

(** The three values a stored state may take. *)
Definition in_range (z : Z) : Prop :=
  z = Initializing \/ z = PowerOn \/ z = PowerOff.

(** Flags with alerts switched off. *)
Definition flags_no_sns : Flags :=
  {| SNS_ENABLE := false; LOG_GHOSTS := false |}.

(** Three sentences of the specification, worded as they stand there;
    each is refuted below. *)


(** "Any other value must be rejected (fails with InvalidSignalLevel)". *)
Definition rejects_invalid_level : Prop :=
  forall fl env b channel w,
    value channel <> 0 -> value channel <> 1 ->
    exists e, fst (gpio_event_detected fl env b channel w) = inl e.

(** "Failure and Success classifications always update ChannelState and
    always produce a PowerEvent that is forwarded". *)
Definition transition_always_commits : Prop :=
  forall fl env b channel w,
    genuine b channel w ->
    let w' := snd (gpio_event_detected fl env b channel w) in
    classified (since w w') = [transition_status (value channel)] /\
    dispatched (since w w') = [(NAME b, transition_status (value channel))] /\
    LAST_STATE b w' = value channel.

(** ** Definitions for the further properties *)

(** *** Runs, relay by relay *)

Definition Relay_eqb (a b : Relay) : bool :=
  match a, b with
  | R1_RELAY, R1_RELAY | R2_RELAY, R2_RELAY | R3_RELAY, R3_RELAY => true
  | _, _ => false
  end.

(** The levels a run reads on relay [b], in order. *)
Definition levels_of (b : Relay) (edges : list (Relay * Z)) : list Z :=
  map snd (filter (fun e => Relay_eqb (fst e) b) edges).

(** The two tests of a handler: [r_state == 1] or [r_state == 0]. *)
Definition valid_level (level : Z) : bool := (level =? 1) || (level =? 0).

(** The tests that lead to the "Failure" and "Success" branches. *)
Definition genuine_b (s level : Z) : bool :=
  ((level =? 1) && (s =? 0)) || ((level =? 0) && (s =? 1)).

(** The alerts handed to [publish_sns_alert] in the name of relay [b]. *)
Definition alerts_for (b : Relay) (tr : list Effect) : list string :=
  map snd (filter (fun p => String.eqb (fst p) (NAME b)) (dispatched tr)).

(** The writes made to the two LEDs of relay [b]. *)
Definition led_writes_of (b : Relay) (tr : list Effect) : list (Led * bool) :=
  filter (fun p => Led_eqb (fst p) (RED_LED b) || Led_eqb (fst p) (GREEN_LED b))
         (led_writes tr).

(** Every dispatch returns: alerts are off, or the transport answers. *)
Definition dispatch_returns (fl : Flags) (env : Env) : Prop :=
  SNS_ENABLE fl = true -> forall rq, exists code, sns_publish env rq = inr code.

(** The stored state after a list of readings on one relay: the last
    level that was 0 or 1, if any. *)
Fixpoint settle (s : Z) (levels : list Z) : Z :=
  match levels with
  | [] => s
  | level :: rest => settle (if valid_level level then level else s) rest
  end.

(** The alerts of a single relay fed [levels] from stored state [s], as
    a function of the levels alone. *)
Fixpoint debounce (s : Z) (levels : list Z) : list string :=
  match levels with
  | [] => []
  | level :: rest =>
      if valid_level level then
        if s =? 2 then debounce level rest
        else if s =? level then debounce s rest
        else transition_status level :: debounce level rest
      else debounce s rest
  end.

(** No two neighbours are equal. *)
Fixpoint alternating (l : list string) : Prop :=
  match l with
  | a :: rest =>
      match rest with
      | b :: _ => a <> b
      | [] => True
      end /\ alternating rest
  | [] => True
  end.

(** The LED writes a reading causes on its relay. *)
Definition writes_for (b : Relay) (level : Z) : list (Led * bool) :=
  if valid_level level
  then if level =? 1
       then [(GREEN_LED b, false); (RED_LED b, true)]
       else [(RED_LED b, false); (GREEN_LED b, true)]
  else [].

(** The last level of a list that was 0 or 1. *)
Fixpoint last_valid (levels : list Z) : option Z :=
  match levels with
  | [] => None
  | level :: rest =>
      match last_valid rest with
      | Some l => Some l
      | None => if valid_level level then Some level else None
      end
  end.

(** The state of an LED after a list of writes. *)
Fixpoint replay (l : Led) (acc : bool) (ws : list (Led * bool)) : bool :=
  match ws with
  | [] => acc
  | (l', on) :: rest => replay l (if Led_eqb l l' then on else acc) rest
  end.

(** *** [main] as a run of readings *)

(** The world with more effects on its trace and nothing else changed. *)
Definition extend (es : list Effect) (w : World) : World :=
  {| R1_LAST_STATE := R1_LAST_STATE w;
     R2_LAST_STATE := R2_LAST_STATE w;
     R3_LAST_STATE := R3_LAST_STATE w;
     ticks := ticks w;
     trace := trace w ++ es |}.

(** Worlds that the handlers cannot tell apart: same stored states, same
    clock.  Handlers never read the trace. *)
Definition same_globals (w w' : World) : Prop :=
  (forall b, LAST_STATE b w = LAST_STATE b w') /\ ticks w = ticks w'.

Definition enabled (b : Relay) : bool :=
  match b with
  | R1_RELAY => R1_ENABLED
  | R2_RELAY => R2_ENABLED
  | R3_RELAY => R3_ENABLED
  end.

(** The readings [main] hands to a handler: the start-up reading of each
    enabled relay, then the edges of the relays that have a callback. *)
Definition seen (level1 level2 level3 : Z) (edges : list (Relay * Z))
  : list (Relay * Z) :=
  filter (fun e => enabled (fst e))
         ([(R1_RELAY, level1); (R2_RELAY, level2); (R3_RELAY, level3)] ++ edges).

(** What [main] itself adds to the trace: its own lines and the closings.
    The rest is what the handlers did. *)
Definition from_handler (e : Effect) : bool :=
  match e with
  | Stdout (TextLine _) | Stdout (HeaderLine _) | Close _ => false
  | _ => true
  end.

Definition main_outcome (ending : exn + unit) : exn + unit :=
  match ending with
  | inl SystemExit => inl SystemExit
  | _ => inr tt
  end.

Definition cleanup_events : list Effect :=
  Stdout (HeaderLine "Cleaning up GPIO and exiting...") :: map Close teardown_order.

Definition closing_lines : list Effect :=
  [Stdout (TextLine "Elapsed Time"); Stdout (TextLine "Mission Complete!!")].

(** The world in which the cleanup starts: the two [except] suites read
    the clock once. *)
Definition after_except (env : Env) (ending : exn + unit) (w : World) : World :=
  match ending with
  | inl KeyboardInterrupt | inl (Exception _) => snd (now env w)
  | _ => w
  end.

(** What [main] does after [signal.pause()] has ended in world [w]. *)
Definition main_tail_events (env : Env) (ending : exn + unit) (w : World)
  : list Effect :=
  match ending with
  | inr _ => cleanup_events ++ closing_lines
  | inl KeyboardInterrupt =>
      Stdout (TextLine ("[!] " ++ clock env (ticks w)
                        ++ ", CTRL-C interrupt detected, terminating script..."))
      :: cleanup_events ++ closing_lines
  | inl (Exception ex) =>
      Stdout (TextLine ("[!] " ++ clock env (ticks w)
                        ++ ", Exception trapped: " ++ ex))
      :: cleanup_events ++ closing_lines
  | inl SystemExit => cleanup_events
  end.

(** *** [remove_old_data] *)

(** What the sweep needs from outside.  [F] stands for Python's floats:
    [time.time()] and the modification times are floats, and the sweep
    only subtracts an int from one and compares two with [<]; both
    operations are taken as given.  [os_walk] is what [os.walk(dir_name)]
    yields, directory by directory (the middle component is unused);
    [remove_error] tells for which paths [os.remove] raises, and with
    which message. *)
Record FsEnv (F : Type) : Type := mkFsEnv {
  time_time : F;
  float_sub : F -> Z -> F;
  float_lt : F -> F -> bool;
  os_walk : string -> list (string * list string);
  remove_error : string -> option string
}.

Arguments time_time {F} _.
Arguments float_sub {F} _ _ _.
Arguments float_lt {F} _ _ _.
Arguments os_walk {F} _ _.
Arguments remove_error {F} _ _.

(** The regular files, each with its modification time. *)
Definition Disk (F : Type) : Type := list (string * F).

Fixpoint ends_with_sep (s : string) : bool :=
  match s with
  | EmptyString => false
  | String c EmptyString => Ascii.eqb c (Ascii.ascii_of_nat 47)
  | String _ rest => ends_with_sep rest
  end.

(** [os.path.join(a, b)] of posixpath. *)
Definition os_path_join (a b : string) : string :=
  if String.prefix "/" b then b
  else if (String.eqb a "" || ends_with_sep a)%bool then (a ++ b)%string
  else (a ++ "/" ++ b)%string.

Definition isfile {F : Type} (p : string) (d : Disk F) : bool :=
  existsb (fun e => String.eqb (fst e) p) d.

Definition getmtime {F : Type} (p : string) (d : Disk F) : exn + F :=
  match find (fun e => String.eqb (fst e) p) d with
  | Some e => inr (snd e)
  | None => inl (Exception "FileNotFoundError")
  end.

Definition os_remove {F : Type} (fenv : FsEnv F) (p : string) (d : Disk F)
  : (exn + unit) * Disk F :=
  match remove_error fenv p with
  | Some msg => (inl (Exception msg), d)
  | None =>
      if isfile p d
      then (inr tt, filter (fun e => negb (String.eqb (fst e) p)) d)
      else (inl (Exception "FileNotFoundError"), d)
  end.

(** The body of the inner loop for one [file_name] of [curr_dir]. *)
Definition sweep_file {F : Type} (fenv : FsEnv F) (dir_name : string)
    (days_back : Z) (purge_time : F) (curr_dir file_name : string)
    (st : Disk F * list Line) : (exn + unit) * (Disk F * list Line) :=
  let p := os_path_join curr_dir file_name in
  if isfile p (fst st) then
    match getmtime p (fst st) with
    | inl e => (inl e, st)
    | inr m_time =>
        if float_lt fenv m_time purge_time then
          let out :=
            snd st ++ [TextLine ("[+] Expunge " ++ dir_name
                                 ++ " data older than " ++ str days_back
                                 ++ " days...")] in
          match os_remove fenv p (fst st) with
          | (inr _, d') => (inr tt, (d', out ++ [TextLine ("[+] Deleted " ++ p)]))
          | (inl (Exception ex), d') => (inr tt, (d', out ++ [TextLine ("[-] " ++ ex)]))
          | (inl e, d') => (inl e, (d', out))
          end
        else (inr tt, st)
    end
  else (inr tt, st).

Fixpoint sweep_files {F : Type} (fenv : FsEnv F) (dir_name : string)
    (days_back : Z) (purge_time : F) (curr_dir : string) (files : list string)
    (st : Disk F * list Line) : (exn + unit) * (Disk F * list Line) :=
  match files with
  | [] => (inr tt, st)
  | file_name :: rest =>
      match sweep_file fenv dir_name days_back purge_time curr_dir file_name st with
      | (inr _, st1) =>
          sweep_files fenv dir_name days_back purge_time curr_dir rest st1
      | (inl e, st1) => (inl e, st1)
      end
  end.

Fixpoint sweep_dirs {F : Type} (fenv : FsEnv F) (dir_name : string)
    (days_back : Z) (purge_time : F) (listing : list (string * list string))
    (st : Disk F * list Line) : (exn + unit) * (Disk F * list Line) :=
  match listing with
  | [] => (inr tt, st)
  | (curr_dir, files) :: rest =>
      match sweep_files fenv dir_name days_back purge_time curr_dir files st with
      | (inr _, st1) => sweep_dirs fenv dir_name days_back purge_time rest st1
      | (inl e, st1) => (inl e, st1)
      end
  end.

(** [remove_old_data(dir_name, days_back)], with [days_back] the value of
    [int(days_back)]; returns the outcome, the disk and the lines
    printed. *)
Definition remove_old_data {F : Type} (fenv : FsEnv F) (dir_name : string)
    (days_back : Z) (d : Disk F) : (exn + unit) * (Disk F * list Line) :=
  let purge_time := float_sub fenv (time_time fenv) (days_back * 86400) in
  sweep_dirs fenv dir_name days_back purge_time (os_walk fenv dir_name) (d, []).

(** The paths the sweep looks at, in order. *)
Definition walked {F : Type} (fenv : FsEnv F) (dir_name : string) : list string :=
  flat_map (fun cf => map (os_path_join (fst cf)) (snd cf)) (os_walk fenv dir_name).

Definition purge_time_of {F : Type} (fenv : FsEnv F) (days_back : Z) : F :=
  float_sub fenv (time_time fenv) (days_back * 86400).

(** The file at [p] is older than the purge time. *)
Definition old {F : Type} (fenv : FsEnv F) (days_back : Z) (p : string)
    (d : Disk F) : bool :=
  match getmtime p d with
  | inr m_time => float_lt fenv m_time (purge_time_of fenv days_back)
  | inl _ => false
  end.

Definition removable {F : Type} (fenv : FsEnv F) (p : string) : bool :=
  match remove_error fenv p with None => true | Some _ => false end.

Definition listed (paths : list string) (p : string) : bool :=
  existsb (String.eqb p) paths.

Definition doomed {F : Type} (fenv : FsEnv F) (days_back : Z) (p : string)
    (d : Disk F) : bool :=
  (isfile p d && old fenv days_back p d && removable fenv p)%bool.

(** What one visited path does to the disk. *)
Definition expunge {F : Type} (fenv : FsEnv F) (days_back : Z) (d : Disk F)
    (p : string) : Disk F :=
  if doomed fenv days_back p d
  then filter (fun e => negb (String.eqb (fst e) p)) d else d.

(** An example disk and environment, with integer seconds for times. *)
Definition fenv_example : FsEnv Z :=
  {| time_time := 1700000000;
     float_sub := Z.sub;
     float_lt := Z.ltb;
     os_walk := fun dir_name => [(dir_name, ["a.log"; "b.log"; "c.log"; "gone.log"])];
     remove_error := fun p => if String.eqb p "log/b.log"
                              then Some "PermissionError" else None |}.

Definition disk_example : Disk Z :=
  [("log/a.log", 1600000000); ("log/b.log", 1600000000);
   ("log/c.log", 1699999999); ("etc/old.cfg", 1500000000)].

(** *** [header] *)

Fixpoint str_repeat (s : string) (n : nat) : string :=
  match n with
  | O => ""
  | S k => s ++ str_repeat s k
  end.

(** Python's [s * n] on a string: empty for [n <= 0]. *)
Definition str_mul (s : string) (n : Z) : string := str_repeat s (Z.to_nat n).

(** The text [header(note)] prints, of which [HeaderLine note] keeps the
    note only.  [len(note)] is the number of characters; the notes of the
    script are ASCII. *)
Definition header_text (note : string) : string :=
  ("[+] --- " ++ note ++ " "
   ++ str_mul "-" ((79 - 9) - Z.of_nat (String.length note)))%string.

(** * Properties *)

(** ** Sanity checks of the embedding *)

Example str_examples : str 1 = "1"%string /\ str 0 = "0"%string /\ str (-3) = "-3"%string.
Proof. repeat split; reflexivity. Qed.

(** Relay 1 at start-up with the line closed (no power): green off, red
    on, one "Script Initializing" line, state 1. *)
Example r1_startup_reading :
  r1_gpio_event_detected source_flags env_ok (button_of R1_RELAY 1) initial_world
  = (inr tt,
     {| R1_LAST_STATE := 1; R2_LAST_STATE := 2; R3_LAST_STATE := 2;
        ticks := 1%nat;
        trace := trace initial_world
                 ++ [LedWrite R1_GREEN_LED false; LedWrite R1_RED_LED true;
                     Stdout (EventLine "[+]" "t0" "Script Initializing"
                               "Sump Pump Relay" "Power is Off" 1
                               "raspberrypi" "dev")] |}).
Proof. reflexivity. Qed.

(** Relay 1 with power on, then the line closes and SNS answers 200. *)
Example r1_power_failure :
  r1_gpio_event_detected source_flags env_ok (button_of R1_RELAY 1) world_r1_on
  = (inr tt,
     {| R1_LAST_STATE := 1; R2_LAST_STATE := 2; R3_LAST_STATE := 2;
        ticks := 3%nat;
        trace := trace world_r1_on
                 ++ [LedWrite R1_GREEN_LED false; LedWrite R1_RED_LED true;
                     Stdout (EventLine "[!]" "t1" "Failure" "Sump Pump Relay"
                               "Power is Off" 1 "raspberrypi" "dev");
                     CallPublish "Sump Pump Relay" "Failure" "Power is Off" 1;
                     Stdout (SendingLine "t2" "Sump Pump Relay"
                               "VigorousPowerDetector");
                     SnsPublish
                       (alert_request env_ok R1_RELAY "t1" "Failure"
                          "Power is Off" 1);
                     Stdout (ResponseLine "t2" 200)] |}).
Proof. reflexivity. Qed.

(** ** Traces *)

Lemma skipn_length_app (A : Type) (l l' : list A) :
  List.skipn (List.length l) (l ++ l') = l'.
Proof. induction l as [|a l IH]; simpl; auto. Qed.

Lemma since_extends (w w' : World) (es : list Effect) :
  trace w' = trace w ++ es -> since w w' = es.
Proof. intros H. unfold since. rewrite H. apply skipn_length_app. Qed.

Lemma dispatched_app (a b : list Effect) :
  dispatched (a ++ b) = (dispatched a ++ dispatched b)%list.
Proof.
  induction a as [|e a IH]; simpl; auto.
  destruct e; simpl; rewrite IH; reflexivity.
Qed.

Lemma published_app (a b : list Effect) :
  published (a ++ b) = (published a ++ published b)%list.
Proof.
  induction a as [|e a IH]; simpl; auto.
  destruct e; simpl; rewrite IH; reflexivity.
Qed.

Lemma closed_app (a b : list Effect) :
  closed (a ++ b) = (closed a ++ closed b)%list.
Proof.
  induction a as [|e a IH]; simpl; auto.
  destruct e; simpl; rewrite IH; reflexivity.
Qed.

Lemma classified_app (a b : list Effect) :
  classified (a ++ b) = (classified a ++ classified b)%list.
Proof.
  induction a as [|e a IH]; simpl; auto.
  destruct e as [[] | | | |]; simpl; rewrite IH; reflexivity.
Qed.

Lemma lit_from_app (l : Led) (acc : bool) (a b : list Effect) :
  lit_from l acc (a ++ b) = lit_from l (lit_from l acc a) b.
Proof.
  revert acc. induction a as [|e a IH]; intros acc; simpl; auto.
  destruct e; simpl; apply IH.
Qed.

(** ** Sequencing *)

Lemma bind_emit (B : Type) (e : Effect) (k : unit -> M B) (w : World) :
  bind (emit e) k w = k tt (snd (emit e w)).
Proof. reflexivity. Qed.

Lemma bind_now (B : Type) (env : Env) (k : string -> M B) (w : World) :
  bind (now env) k w = k (clock env (ticks w)) (snd (now env w)).
Proof. reflexivity. Qed.

Lemma bind_inr (A B : Type) (m : M A) (k : A -> M B) (w w1 : World) (a : A) :
  m w = (inr a, w1) -> bind m k w = k a w1.
Proof. intros E. unfold bind. rewrite E. reflexivity. Qed.

Lemma bind_assoc (A B C : Type) (m : M A) (k1 : A -> M B) (k2 : B -> M C)
    (w : World) :
  bind (bind m k1) k2 w = bind m (fun a => bind (k1 a) k2) w.
Proof. unfold bind. destruct (m w) as [[e | a] w1]; reflexivity. Qed.

Lemma closed_emit (e : Effect) (w : World) :
  closed (trace (snd (emit e w))) = closed (trace w) ++ closed [e].
Proof. cbn [emit snd trace]. apply closed_app. Qed.

Lemma LAST_emit (b : Relay) (e : Effect) (w : World) :
  LAST_STATE b (snd (emit e w)) = LAST_STATE b w.
Proof. destruct b; reflexivity. Qed.

(** ** The handlers compute [transition] *)

Lemma eqb_cases (z : Z) :
  (z = 0 /\ (z =? 0) = true /\ (z =? 1) = false /\ (z =? 2) = false) \/
  (z = 1 /\ (z =? 0) = false /\ (z =? 1) = true /\ (z =? 2) = false) \/
  (z = 2 /\ (z =? 0) = false /\ (z =? 1) = false /\ (z =? 2) = true) \/
  (z <> 0 /\ z <> 1 /\ z <> 2 /\
   (z =? 0) = false /\ (z =? 1) = false /\ (z =? 2) = false).
Proof.
  assert (z = 0 \/ z = 1 \/ z = 2 \/ (z <> 0 /\ z <> 1 /\ z <> 2)) as C by lia.
  destruct C as [C | [C | [C | (C0 & C1 & C2)]]]; try (rewrite C; simpl; tauto).
  right; right; right.
  repeat split; try assumption; apply Z.eqb_neq; assumption.
Qed.

Ltac cases_of z :=
  let H := fresh in
  destruct (eqb_cases z) as [H | [H | [H | H]]];
  decompose [and] H; clear H.

Ltac reduce_ops :=
  cbv beta iota zeta delta
    [gpio_event_detected r1_gpio_event_detected r2_gpio_event_detected
     r3_gpio_event_detected publish_sns_alert client_publish
     get_R1_LAST_STATE get_R2_LAST_STATE get_R3_LAST_STATE
     set_R1_LAST_STATE set_R2_LAST_STATE set_R3_LAST_STATE
     print led_on led_off emit now pass bind ret raise
     transition after leds_for description_for transition_status
     transition_mark event_line alert_request LAST_STATE NAME RED_LED GREEN_LED
     value R1_LAST_STATE R2_LAST_STATE R3_LAST_STATE ticks trace
     SNS_ENABLE LOG_GHOSTS andb orb negb Nat.add].

Ltac use_tests :=
  repeat match goal with
  | H : (_ =? _) = _ |- _ => rewrite !H
  end.

Ltac run_handler := repeat (progress (reduce_ops; try use_tests)).

Lemma handler_transition (fl : Flags) (env : Env) (b : Relay)
    (channel : Button) (w : World) :
  gpio_event_detected fl env b channel w
  = transition fl env b (value channel) w.
Proof.
  destruct channel as [p v], w as [s1 s2 s3 n tr], fl as [sns ghosts].
  destruct b;
    [ cases_of v; cases_of s1 | cases_of v; cases_of s2 | cases_of v; cases_of s3 ];
    destruct sns, ghosts; run_handler;
    repeat rewrite <- app_assoc; cbn [app];
    try match goal with
        | |- context [sns_publish ?e ?rq] => destruct (sns_publish e rq)
        end;
    repeat rewrite <- app_assoc; cbn [app]; try rewrite app_nil_r;
    reflexivity.
Qed.

(** ** Facts about [after] *)

Lemma LAST_after_same (b : Relay) (v : Z) (k : nat) (es : list Effect)
    (w : World) :
  LAST_STATE b (after b v k es w) = v.
Proof. destruct b; reflexivity. Qed.

Lemma LAST_after_other (b b' : Relay) (v : Z) (k : nat) (es : list Effect)
    (w : World) :
  b' <> b -> LAST_STATE b' (after b v k es w) = LAST_STATE b' w.
Proof. destruct b, b'; intros Hb; try reflexivity; congruence. Qed.

Lemma LAST_after_keep (b b' : Relay) (k : nat) (es : list Effect) (w : World) :
  LAST_STATE b' (after b (LAST_STATE b w) k es w) = LAST_STATE b' w.
Proof. destruct b, b'; reflexivity. Qed.

Lemma since_after (b : Relay) (v : Z) (k : nat) (es : list Effect) (w : World) :
  since w (after b v k es w) = es.
Proof. apply since_extends. reflexivity. Qed.

Lemma lit_after (l : Led) (b : Relay) (v : Z) (k : nat) (es : list Effect)
    (w : World) :
  lit l (after b v k es w) = lit_from l (lit l w) es.
Proof. unfold lit. cbn [trace after]. apply lit_from_app. Qed.

(** Every call appends to the trace and closes no device. *)
Lemma handler_extends (fl : Flags) (env : Env) (b : Relay) (channel : Button)
    (w : World) :
  exists es,
    trace (snd (gpio_event_detected fl env b channel w)) = trace w ++ es /\
    closed es = [].
Proof.
  rewrite handler_transition. unfold transition, leds_for.
  repeat match goal with
         | |- context [if ?c then _ else _] => destruct c
         | |- context [match sns_publish ?e ?rq with _ => _ end] =>
             destruct (sns_publish e rq)
         end;
    (eexists; split; [reflexivity | reflexivity]).
Qed.

(** ** First observation *)

(** C4. The first call of a relay's handler, made while its state is
    still 2 (Initializing), returns normally, logs "Script Initializing",
    does not call [publish_sns_alert] and publishes nothing; afterwards the
    state is 1 (power off) for level 1 and 0 (power on) for level 0. *)
Theorem first_observation_initializes (fl : Flags) (env : Env) (b : Relay)
    (channel : Button) (w : World) :
  LAST_STATE b w = Initializing ->
  value channel = 1 \/ value channel = 0 ->
  exists w',
    gpio_event_detected fl env b channel w = (inr tt, w') /\
    classified (since w w') = ["Script Initializing"%string] /\
    dispatched (since w w') = [] /\
    published (since w w') = [] /\
    LAST_STATE b w' = (if value channel =? 1 then PowerOff else PowerOn).
Proof.
  intros Hs Hv. rewrite handler_transition. unfold transition.
  rewrite Hs.
  destruct Hv as [Hv | Hv]; rewrite Hv; cbn [Z.eqb Pos.eqb orb negb Initializing];
    (eexists; split; [reflexivity |]);
    rewrite since_after, LAST_after_same; repeat split; reflexivity.
Qed.

Lemma first_observation_initializes_witness :
  LAST_STATE R2_RELAY initial_world = Initializing /\
  (value (button_of R2_RELAY 1) = 1 \/ value (button_of R2_RELAY 1) = 0) /\
  exists w',
    gpio_event_detected source_flags env_ok R2_RELAY (button_of R2_RELAY 1)
      initial_world = (inr tt, w') /\
    classified (since initial_world w') = ["Script Initializing"%string] /\
    dispatched (since initial_world w') = [] /\
    published (since initial_world w') = [] /\
    LAST_STATE R2_RELAY w' = PowerOff.
Proof.
  split; [reflexivity |]. split; [left; reflexivity |].
  apply (first_observation_initializes source_flags env_ok R2_RELAY
           (button_of R2_RELAY 1) initial_world); [reflexivity | left; reflexivity].
Defined.

(** ** Ghost triggers *)

Lemma ghost_call (fl : Flags) (env : Env) (b : Relay) (channel : Button)
    (w : World) :
  (value channel = 1 /\ LAST_STATE b w = PowerOff) \/
  (value channel = 0 /\ LAST_STATE b w = PowerOn) ->
  gpio_event_detected fl env b channel w
  = (inr tt,
     after b (LAST_STATE b w) 1
       (leds_for b (value channel)
        ++ ghost_lines fl env b (clock env (ticks w)) (value channel)) w).
Proof.
  intros H. rewrite handler_transition. unfold transition, ghost_lines.
  destruct H as [[Hv Hs] | [Hv Hs]]; rewrite Hv, Hs;
    cbn [Z.eqb Pos.eqb orb andb negb PowerOff PowerOn];
    destruct (LOG_GHOSTS fl); try reflexivity;
    rewrite app_nil_r; reflexivity.
Qed.

Lemma ghost_run (fl : Flags) (env : Env) (b : Relay) (level : Z) (n : nat) :
  forall w,
    (level = 1 /\ LAST_STATE b w = PowerOff) \/
    (level = 0 /\ LAST_STATE b w = PowerOn) ->
    exists es,
      trace (snd (observe_all fl env (repeat (b, level) n) w)) = trace w ++ es /\
      fst (observe_all fl env (repeat (b, level) n) w) = repeat (inr tt) n /\
      (forall b', LAST_STATE b' (snd (observe_all fl env (repeat (b, level) n) w))
                  = LAST_STATE b' w) /\
      dispatched es = [] /\
      published es = [] /\
      classified es
      = (if LOG_GHOSTS fl then repeat "Ghost Trigger"%string n else []).
Proof.
  induction n as [|n IH]; intros w H.
  - exists []. cbn [repeat observe_all fst snd]. rewrite app_nil_r.
    destruct (LOG_GHOSTS fl); auto 10.
  - cbn [repeat observe_all fst snd].
    rewrite ghost_call by exact H. cbn [fst snd value button_of].
    set (w1 := after b (LAST_STATE b w) 1 _ w).
    assert (H1 : (level = 1 /\ LAST_STATE b w1 = PowerOff) \/
                 (level = 0 /\ LAST_STATE b w1 = PowerOn)).
    { unfold w1. rewrite LAST_after_keep. exact H. }
    destruct (IH w1 H1) as (es & Htr & Hout & Hlast & Hd & Hp & Hc).
    exists ((leds_for b level
             ++ ghost_lines fl env b (clock env (ticks w)) level) ++ es).
    rewrite Htr, Hout. unfold w1 at 1. cbn [trace after].
    rewrite <- app_assoc.
    split; [reflexivity |]. split; [reflexivity |].
    split.
    { intros b'. rewrite Hlast. unfold w1. apply LAST_after_keep. }
    rewrite !dispatched_app, !published_app, !classified_app, Hd, Hp, Hc.
    unfold ghost_lines, leds_for.
    destruct (level =? 1), (LOG_GHOSTS fl); repeat split; reflexivity.
Qed.

(** C5. Once a relay is initialised, a reading equal to the level its
    stored state stands for (1 while the state is 1, 0 while it is 0) is a
    ghost trigger: however many times it is repeated, every call returns
    normally, no stored state changes, [publish_sns_alert] is never
    called and nothing is published.  The only classification that may
    surface is "Ghost Trigger", once per call, and only under
    [LOG_GHOSTS]. *)
Theorem ghost_trigger_idempotent (fl : Flags) (env : Env) (b : Relay)
    (level : Z) (n : nat) (w : World) :
  (level = 1 /\ LAST_STATE b w = PowerOff) \/
  (level = 0 /\ LAST_STATE b w = PowerOn) ->
  let r := observe_all fl env (repeat (b, level) n) w in
  fst r = repeat (inr tt) n /\
  (forall b', LAST_STATE b' (snd r) = LAST_STATE b' w) /\
  dispatched (since w (snd r)) = [] /\
  published (since w (snd r)) = [] /\
  classified (since w (snd r))
  = (if LOG_GHOSTS fl then repeat "Ghost Trigger"%string n else []).
Proof.
  intros H r. subst r.
  destruct (ghost_run fl env b level n w H) as (es & Htr & Hout & Hlast & Hd & Hp & Hc).
  rewrite (since_extends _ _ _ Htr). auto.
Qed.

Lemma ghost_trigger_idempotent_witness :
  ((1 = 1 /\ LAST_STATE R2_RELAY world_r2_off = PowerOff) \/
   (1 = 0 /\ LAST_STATE R2_RELAY world_r2_off = PowerOn)) /\
  LAST_STATE R2_RELAY
    (snd (observe_all source_flags env_ok (repeat (R2_RELAY, 1) 3) world_r2_off))
  = PowerOff /\
  dispatched
    (since world_r2_off
       (snd (observe_all source_flags env_ok (repeat (R2_RELAY, 1) 3)
               world_r2_off))) = [].
Proof.
  assert (H : (1 = 1 /\ LAST_STATE R2_RELAY world_r2_off = PowerOff) \/
              (1 = 0 /\ LAST_STATE R2_RELAY world_r2_off = PowerOn)).
  { left. split; reflexivity. }
  split; [exact H |].
  destruct (ghost_trigger_idempotent source_flags env_ok R2_RELAY 1 3
              world_r2_off H) as (_ & Hl & Hd & _).
  split; [rewrite Hl; reflexivity | exact Hd].
Defined.

(** ** Indicators *)

(** C9. Every call with level 1 or 0 writes both LEDs of its relay,
    whatever the stored state, the flags and the outcome of the call
    (returned or raised): for level 1 green off then red on, for level 0
    red off then green on; these are the only LED writes of the call, and
    afterwards red is lit exactly for level 1 and green exactly for
    level 0. *)
Theorem indicators_follow_level (fl : Flags) (env : Env) (b : Relay)
    (channel : Button) (w : World) :
  value channel = 1 \/ value channel = 0 ->
  let w' := snd (gpio_event_detected fl env b channel w) in
  led_writes (since w w')
  = (if value channel =? 1
     then [(GREEN_LED b, false); (RED_LED b, true)]
     else [(RED_LED b, false); (GREEN_LED b, true)]) /\
  lit (RED_LED b) w' = (value channel =? 1) /\
  lit (GREEN_LED b) w' = (value channel =? 0).
Proof.
  intros Hv w'. subst w'. rewrite handler_transition. unfold transition.
  destruct Hv as [Hv | Hv]; rewrite Hv; cbn [Z.eqb Pos.eqb orb andb negb];
    repeat match goal with
           | |- context [if ?c then _ else _] => destruct c
           | |- context [match sns_publish ?e ?rq with _ => _ end] =>
               destruct (sns_publish e rq)
           end;
    cbn [snd]; rewrite since_after, !lit_after;
    (split; [reflexivity |]); destruct b; split; reflexivity.
Qed.

Lemma indicators_follow_level_witness :
  (value (button_of R1_RELAY 1) = 1 \/ value (button_of R1_RELAY 1) = 0) /\
  lit R1_RED_LED
    (snd (gpio_event_detected source_flags env_down R1_RELAY
            (button_of R1_RELAY 1) world_r1_on)) = true /\
  lit R1_GREEN_LED
    (snd (gpio_event_detected source_flags env_down R1_RELAY
            (button_of R1_RELAY 1) world_r1_on)) = false.
Proof.
  split; [left; reflexivity |].
  destruct (indicators_follow_level source_flags env_down R1_RELAY
              (button_of R1_RELAY 1) world_r1_on (or_introl eq_refl))
    as (_ & Hr & Hg).
  split; [exact Hr | exact Hg].
Defined.

(** ** Levels other than 0 and 1 *)

(** C2, counterexample: on a reading of 5 the handler of relay 1 returns
    normally; nothing is raised. *)
Lemma invalid_level_not_rejected :
  fst (gpio_event_detected source_flags env_ok R1_RELAY (button_of R1_RELAY 5)
         initial_world) = inr tt /\
  ~ rejects_invalid_level.
Proof.
  split; [reflexivity |].
  intros H.
  destruct (H source_flags env_ok R1_RELAY (button_of R1_RELAY 5) initial_world)
    as [e He]; [discriminate | discriminate |].
  discriminate He.
Qed.

(** C2, amended. A reading other than 0 and 1 is ignored: the call
    returns normally, adds nothing to the trace (no LED write, no line, no
    alert) and leaves every stored state as it was. *)
Theorem invalid_level_ignored (fl : Flags) (env : Env) (b : Relay)
    (channel : Button) (w : World) :
  value channel <> 0 -> value channel <> 1 ->
  exists w',
    gpio_event_detected fl env b channel w = (inr tt, w') /\
    trace w' = trace w /\
    (forall b', LAST_STATE b' w' = LAST_STATE b' w).
Proof.
  intros H0 H1. rewrite handler_transition. unfold transition.
  apply Z.eqb_neq in H0, H1. rewrite H0, H1. cbn [orb negb].
  eexists; split; [reflexivity |]. split.
  - cbn [trace after]. apply app_nil_r.
  - intros b'. apply LAST_after_keep.
Qed.

Lemma invalid_level_ignored_witness :
  value (button_of R3_RELAY (-1)) <> 0 /\
  value (button_of R3_RELAY (-1)) <> 1 /\
  exists w',
    gpio_event_detected source_flags env_ok R3_RELAY (button_of R3_RELAY (-1))
      initial_world = (inr tt, w') /\
    trace w' = trace initial_world /\
    (forall b', LAST_STATE b' w' = LAST_STATE b' initial_world).
Proof.
  split; [cbn; lia |]. split; [cbn; lia |].
  apply (invalid_level_ignored source_flags env_ok R3_RELAY
           (button_of R3_RELAY (-1)) initial_world); cbn; lia.
Defined.

(** ** Genuine transitions and the dispatch *)

Lemma genuine_call (fl : Flags) (env : Env) (b : Relay) (channel : Button)
    (w : World) :
  genuine b channel w ->
  let v := value channel in
  let st := transition_status v in
  let rq := transition_request env b channel w in
  let t' := clock env (S (ticks w)) in
  let pre :=
    leds_for b v
    ++ [event_line env b (transition_mark v) (clock env (ticks w)) st v;
        CallPublish (NAME b) st (description_for v) v] in
  gpio_event_detected fl env b channel w
  = if SNS_ENABLE fl then
      match sns_publish env rq with
      | inr code =>
          (inr tt,
           after b v 2
             (pre ++ [Stdout (SendingLine t' (NAME b) TOPIC_NAME);
                      SnsPublish rq;
                      Stdout (ResponseLine t' code)]) w)
      | inl e =>
          (inl e,
           after b (LAST_STATE b w) 2
             (pre ++ [Stdout (SendingLine t' (NAME b) TOPIC_NAME);
                      SnsPublish rq]) w)
      end
    else (inr tt, after b v 2 pre w).
Proof.
  intros H. rewrite handler_transition.
  unfold transition, transition_request.
  destruct H as [[Hv Hs] | [Hv Hs]]; rewrite Hv, Hs;
    cbn [Z.eqb Pos.eqb orb andb negb PowerOff PowerOn]; reflexivity.
Qed.




(** C3, counterexample: relay 2 is known to be without power (state 1),
    level 0 is read and the publish raises.  The stored state is still 1
    (power off): the "Success" transition was not stored. *)
Lemma transition_not_committed_when_publish_raises :
  genuine R2_RELAY (button_of R2_RELAY 0) world_r2_off /\
  LAST_STATE R2_RELAY
    (snd (gpio_event_detected source_flags env_down R2_RELAY
            (button_of R2_RELAY 0) world_r2_off)) = PowerOff /\
  ~ transition_always_commits.
Proof.
  assert (G : genuine R2_RELAY (button_of R2_RELAY 0) world_r2_off)
    by (right; split; reflexivity).
  split; [exact G |]. split; [reflexivity |].
  intros H.
  destruct (H source_flags env_down R2_RELAY (button_of R2_RELAY 0) world_r2_off G)
    as (_ & _ & Hs).
  discriminate Hs.
Qed.

(** C3, amended. With stored state 0 (power on) a reading of 1 is logged
    as "Failure", with stored state 1 (power off) a reading of 0 is logged
    as "Success", and in both cases [publish_sns_alert] is called once
    with that status.  When the dispatch returns normally (alerts off, or
    the publish answers), the call returns and the stored state becomes 1
    (power off), respectively 0 (power on). *)
Theorem genuine_transition_classified (fl : Flags) (env : Env) (b : Relay)
    (channel : Button) (w : World) :
  genuine b channel w ->
  let r := gpio_event_detected fl env b channel w in
  classified (since w (snd r))
  = [if value channel =? 1 then "Failure"%string else "Success"%string] /\
  dispatched (since w (snd r))
  = [(NAME b, if value channel =? 1 then "Failure"%string else "Success"%string)] /\
  ((SNS_ENABLE fl = false \/
    exists code, sns_publish env (transition_request env b channel w) = inr code) ->
   fst r = inr tt /\
   LAST_STATE b (snd r) = (if value channel =? 1 then PowerOff else PowerOn)).
Proof.
  intros G r. subst r. rewrite (genuine_call fl env b channel w G).
  assert (Hv : (if value channel =? 1 then PowerOff else PowerOn) = value channel).
  { destruct G as [[Hv _] | [Hv _]]; rewrite Hv; reflexivity. }
  rewrite Hv. unfold leds_for, event_line, transition_status.
  destruct (SNS_ENABLE fl);
    [ destruct (sns_publish env (transition_request env b channel w)) as [e | code] |];
    cbn [fst snd]; rewrite since_after, ?LAST_after_same;
    (split; [destruct (value channel =? 1); reflexivity |]);
    (split; [destruct (value channel =? 1); reflexivity |]);
    intros [Hoff | [code' Hok]]; try discriminate; auto.
Qed.

Lemma genuine_transition_classified_witness :
  genuine R2_RELAY (button_of R2_RELAY 0) world_r2_off /\
  classified
    (since world_r2_off
       (snd (gpio_event_detected source_flags env_ok R2_RELAY
               (button_of R2_RELAY 0) world_r2_off))) = ["Success"%string] /\
  LAST_STATE R2_RELAY
    (snd (gpio_event_detected source_flags env_ok R2_RELAY
            (button_of R2_RELAY 0) world_r2_off)) = PowerOn.
Proof.
  assert (G : genuine R2_RELAY (button_of R2_RELAY 0) world_r2_off).
  { right. split; reflexivity. }
  split; [exact G |].
  destruct (genuine_transition_classified source_flags env_ok R2_RELAY
              (button_of R2_RELAY 0) world_r2_off G) as (Hc & _ & Hok).
  split; [exact Hc |].
  destruct (Hok (or_intror (ex_intro _ 200 eq_refl))) as (_ & Hs).
  exact Hs.
Defined.

(** ** Alerts switched off *)

Lemma quiet_call (fl : Flags) (env : Env) (b : Relay) (channel : Button)
    (w : World) :
  SNS_ENABLE fl = false ->
  fst (gpio_event_detected fl env b channel w) = inr tt /\
  exists es,
    trace (snd (gpio_event_detected fl env b channel w)) = trace w ++ es /\
    published es = [].
Proof.
  intros Hoff. rewrite handler_transition. unfold transition, leds_for.
  rewrite Hoff.
  repeat match goal with
         | |- context [if ?c then _ else _] => destruct c
         end;
    (split; [reflexivity | eexists; split; reflexivity]).
Qed.

Lemma quiet_run (fl : Flags) (env : Env) (edges : list (Relay * Z)) :
  SNS_ENABLE fl = false ->
  forall w,
    Forall (fun o => o = inr tt) (fst (observe_all fl env edges w)) /\
    exists es,
      trace (snd (observe_all fl env edges w)) = trace w ++ es /\
      published es = [].
Proof.
  intros Hoff. induction edges as [|[b level] rest IH]; intros w.
  - split; [constructor |]. exists []. split; [symmetry; apply app_nil_r | reflexivity].
  - cbn [observe_all fst snd].
    destruct (quiet_call fl env b (button_of b level) w Hoff) as (Ho & es1 & Ht1 & Hp1).
    destruct (IH (snd (gpio_event_detected fl env b (button_of b level) w)))
      as (Hos & es2 & Ht2 & Hp2).
    split; [constructor; assumption |].
    exists (es1 ++ es2). rewrite Ht2, Ht1, <- app_assoc, published_app, Hp1, Hp2.
    split; reflexivity.
Qed.

(** C7. With [SNS_ENABLE] off, no run of observations, on any relays, with
    any levels and from any state, ever reaches [client.publish], and every
    call returns normally; [publish_sns_alert] itself returns normally
    having printed nothing, published nothing and changed no stored
    state. *)
Theorem alerts_disabled_never_publish (fl : Flags) (env : Env) :
  SNS_ENABLE fl = false ->
  (forall edges w,
     let r := observe_all fl env edges w in
     Forall (fun o => o = inr tt) (fst r) /\
     published (since w (snd r)) = []) /\
  (forall event_time relay_name status description pin_state w,
     exists w',
       publish_sns_alert fl env event_time relay_name status description
         pin_state w = (inr tt, w') /\
       since w w' = [CallPublish relay_name status description pin_state] /\
       forall b, LAST_STATE b w' = LAST_STATE b w).
Proof.
  intros Hoff. split.
  - intros edges w r. subst r.
    destruct (quiet_run fl env edges Hoff w) as (Hos & es & Ht & Hp).
    rewrite (since_extends _ _ _ Ht). auto.
  - intros t name st desc level w.
    unfold publish_sns_alert. rewrite bind_emit, bind_now, Hoff.
    eexists; split; [reflexivity |]. split.
    + apply since_extends. reflexivity.
    + intros []; reflexivity.
Qed.

Lemma alerts_disabled_never_publish_witness :
  SNS_ENABLE flags_no_sns = false /\
  published
    (since initial_world
       (snd (observe_all flags_no_sns env_down (script R1_RELAY) initial_world)))
  = [].
Proof.
  split; [reflexivity |].
  destruct (alerts_disabled_never_publish flags_no_sns env_down eq_refl)
    as (Hrun & _).
  exact (proj2 (Hrun (script R1_RELAY) initial_world)).
Defined.

(** ** The scripted run *)






(** ** The stored state stays within its three values *)









(** ** Teardown *)

Lemma startup_call (fl : Flags) (env : Env) (b : Relay) (channel : Button)
    (w : World) :
  LAST_STATE b w = Initializing ->
  exists w',
    gpio_event_detected fl env b channel w = (inr tt, w') /\
    closed (trace w') = closed (trace w) /\
    forall b', b' <> b -> LAST_STATE b' w' = LAST_STATE b' w.
Proof.
  intros Hs. rewrite handler_transition. unfold transition. rewrite Hs.
  cbn [Initializing Z.eqb Pos.eqb andb orb].
  rewrite ?andb_false_r. cbn [orb].
  destruct (negb _);
    (eexists; split; [reflexivity |]; split;
     [ cbn [trace after]; rewrite closed_app; unfold leds_for;
       destruct (value channel =? 1); cbn; apply app_nil_r
     | intros b' Hb; apply LAST_after_other; exact Hb ]).
Qed.

Lemma fire_closed (fl : Flags) (env : Env) (edges : list (Relay * Z)) :
  forall w, closed (trace (fire fl env edges w)) = closed (trace w).
Proof.
  induction edges as [|[b level] rest IH]; intros w; cbn [fire]; [reflexivity |].
  destruct b; cbn [callback R1_ENABLED R2_ENABLED R3_ENABLED]; rewrite IH; try reflexivity.
  - destruct (handler_extends fl env R1_RELAY (button_of R1_RELAY level) w)
      as (es & Htr & Hc).
    cbn [gpio_event_detected] in Htr. rewrite Htr, closed_app, Hc. apply app_nil_r.
  - destruct (handler_extends fl env R2_RELAY (button_of R2_RELAY level) w)
      as (es & Htr & Hc).
    cbn [gpio_event_detected] in Htr. rewrite Htr, closed_app, Hc. apply app_nil_r.
Qed.

Lemma closes_emit (e : Effect) : closes (emit e) (closed [e]).
Proof. intros w. apply closed_emit. Qed.

Lemma closes_now (env : Env) : closes (now env) [].
Proof. intros w. rewrite app_nil_r. reflexivity. Qed.

Lemma closes_bind_quiet (A B : Type) (m : M A) (k : A -> M B) (ds : list Device) :
  closes m ds -> (forall a, closes (k a) []) -> closes (bind m k) ds.
Proof.
  intros Hm Hk w. unfold bind. specialize (Hm w).
  destruct (m w) as [[e | a] w1]; cbn [snd] in *; [exact Hm |].
  rewrite (Hk a w1), app_nil_r. exact Hm.
Qed.

Lemma closes_emit_then (B : Type) (e : Effect) (k : unit -> M B)
    (ds : list Device) :
  closes (k tt) ds -> closes (bind (emit e) k) (closed [e] ++ ds).
Proof.
  intros Hk w. rewrite bind_emit, (Hk _), closed_emit. apply eq_sym, app_assoc.
Qed.

Lemma closes_signal_pause (fl : Flags) (env : Env) (edges : list (Relay * Z))
    (ending : exn + unit) :
  closes (signal_pause fl env edges ending) [].
Proof. intros w. cbn [signal_pause snd]. rewrite fire_closed, app_nil_r. reflexivity. Qed.

Lemma closes_try_except_finally (body hk : M unit) (hx : string -> M unit)
    (fin : M unit) (ds : list Device) :
  closes body [] -> closes hk [] -> (forall ex, closes (hx ex) []) ->
  closes fin ds ->
  closes (try_except_finally body hk hx fin) ds.
Proof.
  intros Hb Hk Hx Hf w. unfold try_except_finally.
  specialize (Hb w). rewrite app_nil_r in Hb.
  destruct (body w) as [[[| | ex] | []] w1]; cbn [snd] in Hb; cbn zeta.
  - specialize (Hk w1). rewrite app_nil_r in Hk.
    specialize (Hf (snd (hk w1))).
    destruct (fin (snd (hk w1))) as [[e | []] w2]; cbn [snd] in *; congruence.
  - specialize (Hf w1). cbn [snd].
    destruct (fin w1) as [[e | []] w2]; cbn [snd] in *; congruence.
  - specialize (Hx ex w1). rewrite app_nil_r in Hx.
    specialize (Hf (snd (hx ex w1))).
    destruct (fin (snd (hx ex w1))) as [[e | []] w2]; cbn [snd] in *; congruence.
  - specialize (Hf w1). cbn [snd].
    destruct (fin w1) as [[e | []] w2]; cbn [snd] in *; congruence.
Qed.

(** C8. However [signal.pause()] ends (Ctrl-C, an exception, [SystemExit]
    or a plain return), whatever was read at start-up and whatever edges
    were seen while waiting, the [finally] suite of [main] has run when
    [main] ends: the three buttons and the red and green LEDs of relays 1
    and 2 are closed, in source order.  Nothing else is closed: the two
    LEDs of relay 3 are still open. *)
Theorem teardown_leaves_relay3_leds_open (fl : Flags) (env : Env)
    (level1 level2 level3 : Z) (edges : list (Relay * Z)) (ending : exn + unit) :
  let w' := snd (main fl env level1 level2 level3 edges ending initial_world) in
  closed (trace w') = teardown_order /\
  ~ In (LedDev R3_RED_LED) (closed (trace w')) /\
  ~ In (LedDev R3_GREEN_LED) (closed (trace w')).
Proof.
  intros w'.
  assert (E : closed (trace w') = teardown_order).
  { subst w'. unfold main, header, print, close.
    cbn [R1_ENABLED R2_ENABLED R3_ENABLED].
    rewrite !bind_emit, !bind_assoc, !bind_emit.
    match goal with
    | |- context [bind (r1_gpio_event_detected fl env ?c) ?k ?W] =>
        destruct (startup_call fl env R1_RELAY c W eq_refl) as (w1 & E1 & C1 & F1);
        cbn [gpio_event_detected] in E1; rewrite (bind_inr _ _ _ k _ _ _ E1)
    end.
    pose proof (F1 R2_RELAY ltac:(discriminate)) as S2.
    rewrite !LAST_emit in S2.
    rewrite !bind_assoc, !bind_emit.
    match goal with
    | |- context [bind (r2_gpio_event_detected fl env ?c) ?k ?W] =>
        destruct (startup_call fl env R2_RELAY c W) as (w2 & E2 & C2 & F2);
        [ rewrite LAST_emit; exact S2 |];
        cbn [gpio_event_detected] in E2; rewrite (bind_inr _ _ _ k _ _ _ E2)
    end.
    unfold pass at 1. rewrite (bind_inr _ _ (ret tt) _ _ _ _ eq_refl).
    clear E1 F1 E2 F2.
    rewrite !closed_emit in C1. rewrite closed_emit, C1 in C2.
    cbn [closed app initial_world trace] in C2.
    match goal with
    | |- closed (trace (snd (?m w2))) = _ =>
        assert (Hm : closes m teardown_order)
    end.
    { apply closes_bind_quiet.
      - apply closes_try_except_finally.
        + change (@nil Device) with (closed [Stdout (TextLine "")] ++ []).
          apply closes_emit_then.
          change (@nil Device) with (closed [Stdout (HeaderLine "Monitoring")] ++ []).
          apply closes_emit_then, closes_signal_pause.
        + apply closes_bind_quiet; [apply closes_now |].
          intros t. apply (closes_emit (Stdout _)).
        + intros ex. apply closes_bind_quiet; [apply closes_now |].
          intros t. apply (closes_emit (Stdout _)).
        + intros w. rewrite !bind_emit, !closed_emit. cbn [closed].
          rewrite !app_nil_r, <- !app_assoc. reflexivity.
      - intros _. apply closes_bind_quiet; intros; apply (closes_emit (Stdout _)). }
    rewrite (Hm w2), C2. reflexivity. }
  rewrite E. unfold teardown_order. cbn [In].
  repeat split; try reflexivity; intros H;
    repeat (destruct H as [H | H]; [discriminate H |]); exact H.
Qed.

(** * Further properties *)

(** ** One call, summarised *)

Lemma call_summary (fl : Flags) (env : Env) (b : Relay) (channel : Button)
    (w : World) :
  exists o v k es,
    gpio_event_detected fl env b channel w = (o, after b v k es w) /\
    led_writes es
    = (if valid_level (value channel)
       then if value channel =? 1
            then [(GREEN_LED b, false); (RED_LED b, true)]
            else [(RED_LED b, false); (GREEN_LED b, true)]
       else []) /\
    dispatched es
    = (if genuine_b (LAST_STATE b w) (value channel)
       then [(NAME b, transition_status (value channel))] else []) /\
    (List.length (published es) <= List.length (dispatched es))%nat /\
    match o with
    | inr _ =>
        v = (if valid_level (value channel)
                && ((LAST_STATE b w =? 2)
                    || genuine_b (LAST_STATE b w) (value channel))
             then value channel else LAST_STATE b w)
    | inl e =>
        v = LAST_STATE b w /\
        genuine_b (LAST_STATE b w) (value channel) = true /\
        SNS_ENABLE fl = true /\
        sns_publish env (transition_request env b channel w) = inl e
    end.
Proof.
  rewrite handler_transition.
  unfold transition, transition_request, valid_level, genuine_b, leds_for, event_line.
  cases_of (value channel); cases_of (LAST_STATE b w);
    repeat match goal with
           | H : (_ =? _) = _ |- _ => rewrite !H
           end;
    cbn [andb orb negb];
    destruct (SNS_ENABLE fl) eqn:Hsns; destruct (LOG_GHOSTS fl);
    try match goal with
        | |- context [match sns_publish ?e ?rq with _ => _ end] =>
            destruct (sns_publish e rq) eqn:Hpub
        end;
    do 4 eexists; (split; [reflexivity |]);
    cbn [led_writes dispatched published app List.length];
    repeat split; auto; try congruence.
Qed.

(** ** Per-relay projections *)

Lemma Relay_eqb_eq (a b : Relay) : Relay_eqb a b = true <-> a = b.
Proof. destruct a, b; cbn; split; intros H; try reflexivity; discriminate. Qed.

Lemma Relay_eqb_refl (b : Relay) : Relay_eqb b b = true.
Proof. destruct b; reflexivity. Qed.

Lemma Relay_eqb_neq (a b : Relay) : a <> b -> Relay_eqb a b = false.
Proof. destruct a, b; intros H; try reflexivity; congruence. Qed.

Lemma NAME_eqb (a b : Relay) : String.eqb (NAME a) (NAME b) = Relay_eqb a b.
Proof. destruct a, b; reflexivity. Qed.

Lemma alerts_for_app (b : Relay) (x y : list Effect) :
  alerts_for b (x ++ y) = alerts_for b x ++ alerts_for b y.
Proof. unfold alerts_for. rewrite dispatched_app, filter_app, map_app. reflexivity. Qed.

Lemma led_writes_app (a b : list Effect) :
  led_writes (a ++ b) = led_writes a ++ led_writes b.
Proof.
  induction a as [|e a IH]; cbn; auto.
  destruct e; cbn; rewrite IH; reflexivity.
Qed.

Lemma led_writes_of_app (b : Relay) (x y : list Effect) :
  led_writes_of b (x ++ y) = led_writes_of b x ++ led_writes_of b y.
Proof. unfold led_writes_of. rewrite led_writes_app, filter_app. reflexivity. Qed.

Lemma genuine_b_true (s level : Z) :
  genuine_b s level = true <-> (level = 1 /\ s = 0) \/ (level = 0 /\ s = 1).
Proof.
  unfold genuine_b.
  rewrite orb_true_iff, !andb_true_iff, !Z.eqb_eq. reflexivity.
Qed.

(** What one call shows of relay [b'] when it is made on relay [b]. *)
Lemma call_projection (fl : Flags) (env : Env) (b b' : Relay) (channel : Button)
    (w : World) :
  exists es,
    trace (snd (gpio_event_detected fl env b channel w)) = trace w ++ es /\
    led_writes_of b' es
    = (if Relay_eqb b b' then writes_for b (value channel) else []) /\
    alerts_for b' es
    = (if Relay_eqb b b' && genuine_b (LAST_STATE b w) (value channel)
       then [transition_status (value channel)] else []) /\
    (b' <> b ->
     LAST_STATE b' (snd (gpio_event_detected fl env b channel w))
     = LAST_STATE b' w).
Proof.
  destruct (call_summary fl env b channel w)
    as (o & v & k & es & E & Hl & Hd & _ & _).
  rewrite E. exists es. cbn [snd]. split; [reflexivity |].
  unfold led_writes_of, alerts_for, writes_for. rewrite Hl, Hd.
  split; [| split].
  - destruct (valid_level (value channel)), (value channel =? 1);
      destruct b, b'; reflexivity.
  - destruct (genuine_b (LAST_STATE b w) (value channel));
      cbn [filter fst map snd]; rewrite ?NAME_eqb;
      destruct (Relay_eqb b b'); reflexivity.
  - intros Hb. apply LAST_after_other. exact Hb.
Qed.

Lemma lit_from_replay (l : Led) (es : list Effect) :
  forall acc, lit_from l acc es = replay l acc (led_writes es).
Proof.
  induction es as [|e es IH]; intros acc; cbn; [reflexivity |].
  destruct e; cbn; apply IH.
Qed.

Lemma Led_eqb_eq (a b : Led) : Led_eqb a b = true -> a = b.
Proof. destruct a, b; cbn; intros H; try reflexivity; discriminate. Qed.

(** Only the writes to the LEDs of a relay matter to them. *)
Lemma replay_own (b : Relay) (l : Led) (ws : list (Led * bool)) :
  l = RED_LED b \/ l = GREEN_LED b ->
  forall acc,
    replay l acc ws
    = replay l acc
        (filter (fun p => Led_eqb (fst p) (RED_LED b) || Led_eqb (fst p) (GREEN_LED b))
                ws).
Proof.
  intros Hl. induction ws as [|[l' on] ws IH]; intros acc; cbn; [reflexivity |].
  destruct (Led_eqb l' (RED_LED b) || Led_eqb l' (GREEN_LED b)) eqn:E.
  - cbn. apply IH.
  - rewrite IH.
    assert (N : Led_eqb l l' = false).
    { destruct Hl as [-> | ->]; destruct b, l'; cbn in *; try reflexivity; discriminate. }
    rewrite N. reflexivity.
Qed.

Lemma lit_extends (b : Relay) (l : Led) (w w' : World) (es : list Effect) :
  l = RED_LED b \/ l = GREEN_LED b ->
  trace w' = trace w ++ es ->
  lit l w' = replay l (lit l w) (led_writes_of b es).
Proof.
  intros Hl Ht. unfold lit. rewrite Ht, lit_from_app, lit_from_replay.
  apply replay_own. exact Hl.
Qed.

(** ** One call and the other relays *)

(** X1. A call of the handler of one relay leaves every other relay
    alone: their stored state is unchanged, none of their LEDs is
    written (so both stay lit or dark as they were), and no alert is
    dispatched in their name. *)
Theorem call_leaves_other_relays_alone (fl : Flags) (env : Env) (b b' : Relay)
    (channel : Button) (w : World) :
  b' <> b ->
  let w' := snd (gpio_event_detected fl env b channel w) in
  LAST_STATE b' w' = LAST_STATE b' w /\
  led_writes_of b' (since w w') = [] /\
  lit (RED_LED b') w' = lit (RED_LED b') w /\
  lit (GREEN_LED b') w' = lit (GREEN_LED b') w /\
  alerts_for b' (since w w') = [].
Proof.
  intros Hb w'. subst w'.
  destruct (call_projection fl env b b' channel w) as (es & Ht & Hl & Ha & Hs).
  assert (N : Relay_eqb b b' = false) by (apply Relay_eqb_neq; congruence).
  rewrite N in Hl, Ha. cbn [andb] in Ha.
  rewrite (since_extends _ _ _ Ht).
  rewrite (lit_extends b' (RED_LED b') _ _ es (or_introl eq_refl) Ht).
  rewrite (lit_extends b' (GREEN_LED b') _ _ es (or_intror eq_refl) Ht).
  rewrite Hl. cbn [replay]. auto.
Qed.

Lemma call_leaves_other_relays_alone_witness :
  R2_RELAY <> R1_RELAY /\
  LAST_STATE R2_RELAY
    (snd (gpio_event_detected source_flags env_ok R1_RELAY (button_of R1_RELAY 1)
            world_r1_on)) = Initializing /\
  alerts_for R2_RELAY
    (since world_r1_on
       (snd (gpio_event_detected source_flags env_ok R1_RELAY
               (button_of R1_RELAY 1) world_r1_on))) = [].
Proof.
  assert (N : R2_RELAY <> R1_RELAY) by discriminate.
  split; [exact N |].
  destruct (call_leaves_other_relays_alone source_flags env_ok R1_RELAY R2_RELAY
              (button_of R1_RELAY 1) world_r1_on N) as (Hs & _ & _ & _ & Ha).
  split; [rewrite Hs; reflexivity | exact Ha].
Defined.

(** ** When a call raises *)

(** X2. A handler raises only in one way: the reading is a genuine
    transition, [SNS_ENABLE] is on and the publish of that transition's
    request raised; the exception that leaves the handler is the one of
    the publish. *)
Theorem call_raises_only_when_publish_raises (fl : Flags) (env : Env)
    (b : Relay) (channel : Button) (w : World) (e : exn) :
  fst (gpio_event_detected fl env b channel w) = inl e ->
  genuine b channel w /\
  SNS_ENABLE fl = true /\
  sns_publish env (transition_request env b channel w) = inl e.
Proof.
  destruct (call_summary fl env b channel w)
    as (o & v & k & es & E & _ & _ & _ & Ho).
  rewrite E. cbn [fst]. intros ->.
  destruct Ho as (_ & Hg & Hs & Hp).
  apply genuine_b_true in Hg.
  split; [| split; assumption].
  unfold genuine, PowerOn, PowerOff. tauto.
Qed.

Lemma call_raises_only_when_publish_raises_witness :
  fst (gpio_event_detected source_flags env_down R1_RELAY (button_of R1_RELAY 1)
         world_r1_on) = inl (Exception "EndpointConnectionError") /\
  genuine R1_RELAY (button_of R1_RELAY 1) world_r1_on /\
  SNS_ENABLE source_flags = true.
Proof.
  split; [reflexivity |].
  destruct (call_raises_only_when_publish_raises source_flags env_down R1_RELAY
              (button_of R1_RELAY 1) world_r1_on
              (Exception "EndpointConnectionError") eq_refl) as (G & S & _).
  split; [exact G | exact S].
Defined.



(** X4. One call dispatches at most one alert and publishes at most
    once, and never publishes without having dispatched: there is no
    retry and no second alert inside a call. *)
Theorem one_dispatch_per_call (fl : Flags) (env : Env) (b : Relay)
    (channel : Button) (w : World) :
  let es := since w (snd (gpio_event_detected fl env b channel w)) in
  (List.length (published es) <= List.length (dispatched es))%nat /\
  (List.length (dispatched es) <= 1)%nat.
Proof.
  intros es. subst es.
  destruct (call_summary fl env b channel w)
    as (o & v & k & es & E & _ & Hd & Hp & _).
  rewrite E. cbn [snd]. rewrite since_after. split; [exact Hp |].
  rewrite Hd. destruct (genuine_b _ _); cbn; lia.
Qed.

(** ** Runs *)

Lemma levels_of_cons (b b0 : Relay) (level : Z) (rest : list (Relay * Z)) :
  levels_of b ((b0, level) :: rest)
  = if Relay_eqb b0 b then level :: levels_of b rest else levels_of b rest.
Proof. unfold levels_of. cbn. destruct (Relay_eqb b0 b); reflexivity. Qed.

Lemma in_range_cases (s : Z) :
  in_range s ->
  (s = 2 /\ (s =? 2) = true) \/
  (valid_level s = true /\ (s =? 2) = false).
Proof.
  intros [-> | [-> | ->]]; [left | right | right]; split; reflexivity.
Qed.

Lemma valid_level_cases (level : Z) :
  valid_level level = true -> level = 1 \/ level = 0.
Proof.
  unfold valid_level. rewrite orb_true_iff, !Z.eqb_eq. tauto.
Qed.

(** The state one returned call leaves, and the alert it hands over. *)
Lemma own_call (fl : Flags) (env : Env) (b : Relay) (channel : Button)
    (w : World) :
  dispatch_returns fl env ->
  in_range (LAST_STATE b w) ->
  fst (gpio_event_detected fl env b channel w) = inr tt /\
  LAST_STATE b (snd (gpio_event_detected fl env b channel w))
  = settle (LAST_STATE b w) [value channel] /\
  (if genuine_b (LAST_STATE b w) (value channel)
   then [transition_status (value channel)] else [])
  = debounce (LAST_STATE b w) [value channel].
Proof.
  intros Hok Hr.
  destruct (call_summary fl env b channel w)
    as (o & v & k & es & E & _ & _ & _ & Ho).
  rewrite E. cbn [fst snd settle debounce]. rewrite LAST_after_same.
  destruct o as [e | []].
  - destruct Ho as (_ & _ & Hs & Hp).
    destruct (Hok Hs (transition_request env b channel w)) as [code Hc].
    congruence.
  - split; [reflexivity |]. subst v.
    unfold genuine_b.
    destruct (valid_level (value channel)) eqn:Hv.
    + apply valid_level_cases in Hv.
      destruct Hr as [Hs | [Hs | Hs]], Hv as [Hv | Hv]; rewrite Hs, Hv;
        split; reflexivity.
    + unfold valid_level in Hv. apply orb_false_iff in Hv. destruct Hv as [H1 H0].
      rewrite H1, H0. cbn [andb orb]. split; reflexivity.
Qed.

Lemma settle_in_range (levels : list Z) :
  forall s, in_range s -> in_range (settle s levels).
Proof.
  induction levels as [|level rest IH]; intros s Hs; cbn; [exact Hs |].
  apply IH. destruct (valid_level level) eqn:Hv; [| exact Hs].
  apply valid_level_cases in Hv. destruct Hv as [-> | ->]; unfold in_range; auto.
Qed.

Lemma run_projection (fl : Flags) (env : Env) (b : Relay)
    (edges : list (Relay * Z)) :
  dispatch_returns fl env ->
  forall w,
    in_range (LAST_STATE b w) ->
    exists es,
      trace (snd (observe_all fl env edges w)) = trace w ++ es /\
      Forall (fun o => o = inr tt) (fst (observe_all fl env edges w)) /\
      LAST_STATE b (snd (observe_all fl env edges w))
      = settle (LAST_STATE b w) (levels_of b edges) /\
      alerts_for b es = debounce (LAST_STATE b w) (levels_of b edges).
Proof.
  intros Hok. induction edges as [|[b0 level] rest IH]; intros w Hr.
  - exists []. cbn. rewrite app_nil_r. auto.
  - cbn [observe_all fst snd]. rewrite levels_of_cons.
    destruct (call_projection fl env b0 b (button_of b0 level) w)
      as (es1 & Ht1 & _ & Ha1 & Hs1).
    set (w1 := snd (gpio_event_detected fl env b0 (button_of b0 level) w)) in *.
    assert (Hret : fst (gpio_event_detected fl env b0 (button_of b0 level) w) = inr tt).
    { destruct (call_summary fl env b0 (button_of b0 level) w)
        as (o & v & k & es & E & _ & _ & _ & Ho).
      rewrite E. cbn [fst]. destruct o as [e | []]; [| reflexivity].
      destruct Ho as (_ & _ & Hs & Hp).
      destruct (Hok Hs (transition_request env b0 (button_of b0 level) w))
        as [code Hc]. congruence. }
    destruct (Relay_eqb b0 b) eqn:Eb.
    + apply Relay_eqb_eq in Eb. subst b0.
      destruct (own_call fl env b (button_of b level) w Hok Hr) as (_ & Hs & Hd).
      fold w1 in Hs. cbn [value button_of settle] in Hs, Hd, Ha1.
      cbn [andb] in Ha1.
      assert (Hr1 : in_range (LAST_STATE b w1)).
      { rewrite Hs. apply (settle_in_range [level]). exact Hr. }
      destruct (IH w1 Hr1) as (es2 & Ht2 & Hf2 & Hs2 & Ha2).
      exists (es1 ++ es2). rewrite Ht2, Ht1, <- app_assoc.
      split; [reflexivity |]. split; [constructor; assumption |].
      rewrite Hs2, alerts_for_app, Ha1, Ha2, Hs, Hd.
      cbn [settle debounce].
      destruct (valid_level level); [| auto].
      destruct (LAST_STATE b w =? 2); [rewrite app_nil_l; auto |].
      destruct (LAST_STATE b w =? level) eqn:El; [| auto].
      apply Z.eqb_eq in El. rewrite El. auto.
    + assert (Nb : b <> b0).
      { intros ->. rewrite Relay_eqb_refl in Eb. discriminate. }
      specialize (Hs1 Nb). cbn [andb] in Ha1.
      assert (Hr1 : in_range (LAST_STATE b w1)) by (rewrite Hs1; exact Hr).
      destruct (IH w1 Hr1) as (es2 & Ht2 & Hf2 & Hs2 & Ha2).
      exists (es1 ++ es2). rewrite Ht2, Ht1, <- app_assoc.
      split; [reflexivity |]. split; [constructor; assumption |].
      rewrite Hs2, alerts_for_app, Ha1, Ha2, Hs1. auto.
Qed.

Lemma settle_last_valid (levels : list Z) :
  forall s,
    settle s levels
    = match last_valid levels with Some level => level | None => s end.
Proof.
  induction levels as [|level rest IH]; intros s; cbn [settle last_valid];
    [reflexivity |].
  rewrite IH. destruct (last_valid rest); [reflexivity |].
  destruct (valid_level level); reflexivity.
Qed.

(** X5. When every dispatch returns, any interleaved run of readings
    on the three relays returns from every call, and leaves the stored
    state of relay [b] at the last reading of [b] that was 0 or 1, or
    where it was when [b] had no such reading. *)
Theorem run_state_is_last_valid_level (fl : Flags) (env : Env) (b : Relay)
    (edges : list (Relay * Z)) (w : World) :
  dispatch_returns fl env ->
  in_range (LAST_STATE b w) ->
  let r := observe_all fl env edges w in
  Forall (fun o => o = inr tt) (fst r) /\
  LAST_STATE b (snd r)
  = match last_valid (levels_of b edges) with
    | Some level => level
    | None => LAST_STATE b w
    end.
Proof.
  intros Hok Hr r. subst r.
  destruct (run_projection fl env b edges Hok w Hr) as (es & _ & Hf & Hs & _).
  split; [exact Hf |]. rewrite Hs. apply settle_last_valid.
Qed.

(** X7. When every dispatch returns, the alerts dispatched for relay
    [b] in an interleaved run are exactly those of [debounce] on the
    readings of [b] alone: the first valid reading of an uninitialised
    relay and every repeated level give none, every change of level gives
    one, "Failure" for 1 and "Success" for 0. *)
Theorem run_alerts_are_debounced (fl : Flags) (env : Env) (b : Relay)
    (edges : list (Relay * Z)) (w : World) :
  dispatch_returns fl env ->
  in_range (LAST_STATE b w) ->
  alerts_for b (since w (snd (observe_all fl env edges w)))
  = debounce (LAST_STATE b w) (levels_of b edges).
Proof.
  intros Hok Hr.
  destruct (run_projection fl env b edges Hok w Hr) as (es & Ht & _ & _ & Ha).
  rewrite (since_extends _ _ _ Ht). exact Ha.
Qed.

Lemma valid_level_not_2 (s : Z) : valid_level s = true -> (s =? 2) = false.
Proof.
  intros H. apply valid_level_cases in H. destruct H as [-> | ->]; reflexivity.
Qed.

Lemma transition_status_flip (a b : Z) :
  valid_level a = true -> valid_level b = true -> (a =? b) = false ->
  transition_status a <> transition_status b.
Proof.
  intros Ha Hb Hab. apply valid_level_cases in Ha, Hb.
  destruct Ha as [-> | ->], Hb as [-> | ->]; cbn in *; discriminate.
Qed.

(** Without an alert the level is the one it was. *)
Lemma debounce_silent (levels : list Z) :
  forall s,
    valid_level s = true -> debounce s levels = [] -> settle s levels = s.
Proof.
  induction levels as [|level rest IH]; intros s Hs Hd; [reflexivity |].
  cbn [debounce settle] in *. rewrite (valid_level_not_2 s Hs) in Hd.
  destruct (valid_level level) eqn:Hv; [| apply IH; assumption].
  destruct (s =? level) eqn:E; [| discriminate Hd].
  apply Z.eqb_eq in E. subst level. apply IH; assumption.
Qed.

(** From a known level, the alerts alternate, start with the status of
    the other level and end with that of the level reached. *)
Lemma debounce_valid (levels : list Z) :
  forall s,
    valid_level s = true ->
    alternating (debounce s levels) /\
    hd_error (debounce s levels) <> Some (transition_status s) /\
    (debounce s levels <> [] ->
     last (debounce s levels) ""%string = transition_status (settle s levels)).
Proof.
  induction levels as [|level rest IH]; intros s Hs.
  - cbn. repeat split; [discriminate | congruence].
  - cbn [debounce settle]. rewrite (valid_level_not_2 s Hs).
    destruct (valid_level level) eqn:Hv; [| apply IH; exact Hs].
    destruct (s =? level) eqn:E.
    + apply Z.eqb_eq in E. subst level. apply IH. exact Hs.
    + destruct (IH level Hv) as (Ha & Hh & Hl).
      pose proof (transition_status_flip s level Hs Hv E) as Hne.
      pose proof (debounce_silent rest level Hv) as Hq.
      destruct (debounce level rest) as [|a tl].
      * cbn. rewrite Hq by reflexivity. repeat split; congruence.
      * split; [| split].
        -- cbn [alternating]. split; [cbn in Hh; congruence | exact Ha].
        -- cbn. congruence.
        -- intros _. rewrite <- Hl by discriminate. reflexivity.
Qed.

Lemma debounce_in_range (levels : list Z) :
  forall s,
    in_range s ->
    alternating (debounce s levels) /\
    (debounce s levels <> [] ->
     last (debounce s levels) ""%string = transition_status (settle s levels)).
Proof.
  induction levels as [|level rest IH]; intros s Hs.
  - cbn. split; [exact I | congruence].
  - destruct (in_range_cases s Hs) as [[-> _] | [Hv _]].
    + cbn [debounce settle Z.eqb Pos.eqb].
      destruct (valid_level level) eqn:Hl.
      * destruct (debounce_valid rest level Hl) as (Ha & _ & Hlast). auto.
      * apply IH. left. reflexivity.
    + destruct (debounce_valid (level :: rest) s Hv) as (Ha & _ & Hlast). auto.
Qed.

(** X8. When every dispatch returns, no two consecutive alerts of a
    relay carry the same status, and the last alert of a run agrees with
    the stored state the run ends in. *)
Theorem run_alerts_alternate (fl : Flags) (env : Env) (b : Relay)
    (edges : list (Relay * Z)) (w : World) :
  dispatch_returns fl env ->
  in_range (LAST_STATE b w) ->
  let w' := snd (observe_all fl env edges w) in
  alternating (alerts_for b (since w w')) /\
  (alerts_for b (since w w') <> [] ->
   last (alerts_for b (since w w')) ""%string
   = transition_status (LAST_STATE b w')).
Proof.
  intros Hok Hr w'. subst w'.
  destruct (run_projection fl env b edges Hok w Hr) as (es & Ht & _ & Hs & Ha).
  rewrite (since_extends _ _ _ Ht), Ha, Hs.
  apply debounce_in_range. exact Hr.
Qed.

(** ** LEDs after a run *)

Lemma run_led_writes (fl : Flags) (env : Env) (b : Relay)
    (edges : list (Relay * Z)) :
  forall w,
    exists es,
      trace (snd (observe_all fl env edges w)) = trace w ++ es /\
      led_writes_of b es = flat_map (writes_for b) (levels_of b edges).
Proof.
  induction edges as [|[b0 level] rest IH]; intros w.
  - exists []. cbn. rewrite app_nil_r. auto.
  - cbn [observe_all fst snd]. rewrite levels_of_cons.
    destruct (call_projection fl env b0 b (button_of b0 level) w)
      as (es1 & Ht1 & Hl1 & _ & _).
    destruct (IH (snd (gpio_event_detected fl env b0 (button_of b0 level) w)))
      as (es2 & Ht2 & Hl2).
    exists (es1 ++ es2). rewrite Ht2, Ht1, <- app_assoc.
    split; [reflexivity |].
    rewrite led_writes_of_app, Hl1, Hl2. cbn [value button_of].
    destruct (Relay_eqb b0 b) eqn:Eb; [| reflexivity].
    apply Relay_eqb_eq in Eb. subst b0. reflexivity.
Qed.

Lemma replay_app (l : Led) (x y : list (Led * bool)) :
  forall acc, replay l acc (x ++ y) = replay l (replay l acc x) y.
Proof.
  induction x as [|[l' on] x IH]; intros acc; cbn; [reflexivity | apply IH].
Qed.

Lemma replay_levels (b : Relay) (levels : list Z) :
  forall red green,
    replay (RED_LED b) red (flat_map (writes_for b) levels)
    = match last_valid levels with Some level => level =? 1 | None => red end /\
    replay (GREEN_LED b) green (flat_map (writes_for b) levels)
    = match last_valid levels with Some level => level =? 0 | None => green end.
Proof.
  induction levels as [|level rest IH]; intros red green; [split; reflexivity |].
  cbn [flat_map last_valid]. rewrite !replay_app.
  destruct (IH (replay (RED_LED b) red (writes_for b level))
              (replay (GREEN_LED b) green (writes_for b level))) as (Hr & Hg).
  rewrite Hr, Hg.
  destruct (last_valid rest); [split; reflexivity |].
  unfold writes_for. destruct (valid_level level) eqn:Hv; [| split; reflexivity].
  apply valid_level_cases in Hv. destruct Hv as [-> | ->]; destruct b; split; reflexivity.
Qed.

(** X6. After any run, whatever the dispatches do, the red LED of
    relay [b] is lit exactly when the last reading of [b] that was 0 or 1
    was 1, and the green one exactly when it was 0; without such a
    reading both are as before. *)
Theorem run_leds_show_last_valid_level (fl : Flags) (env : Env) (b : Relay)
    (edges : list (Relay * Z)) (w : World) :
  let w' := snd (observe_all fl env edges w) in
  lit (RED_LED b) w'
  = match last_valid (levels_of b edges) with
    | Some level => level =? 1
    | None => lit (RED_LED b) w
    end /\
  lit (GREEN_LED b) w'
  = match last_valid (levels_of b edges) with
    | Some level => level =? 0
    | None => lit (GREEN_LED b) w
    end.
Proof.
  intros w'. subst w'.
  destruct (run_led_writes fl env b edges w) as (es & Ht & Hl).
  rewrite (lit_extends b (RED_LED b) _ _ es (or_introl eq_refl) Ht).
  rewrite (lit_extends b (GREEN_LED b) _ _ es (or_intror eq_refl) Ht).
  rewrite Hl. apply replay_levels.
Qed.

(** ** [main] as a run of readings *)

Lemma emit_extend (e : Effect) (w : World) : emit e w = (inr tt, extend [e] w).
Proof. reflexivity. Qed.

Lemma bind_emit_extend (B : Type) (e : Effect) (k : unit -> M B) (w : World) :
  bind (emit e) k w = k tt (extend [e] w).
Proof. reflexivity. Qed.

Lemma extend_extend (x y : list Effect) (w : World) :
  extend y (extend x w) = extend (x ++ y) w.
Proof. unfold extend. cbn [R1_LAST_STATE R2_LAST_STATE R3_LAST_STATE ticks trace].
  rewrite app_assoc. reflexivity. Qed.

Lemma LAST_extend (b : Relay) (es : list Effect) (w : World) :
  LAST_STATE b (extend es w) = LAST_STATE b w.
Proof. destruct b; reflexivity. Qed.

Lemma same_globals_extend (es : list Effect) (w w' : World) :
  same_globals w w' -> same_globals (extend es w) w'.
Proof.
  intros [Hs Ht]. split; [| exact Ht].
  intros b. rewrite LAST_extend. apply Hs.
Qed.

Lemma same_globals_after (b : Relay) (v : Z) (k : nat) (es es' : list Effect)
    (w w' : World) :
  same_globals w w' -> same_globals (after b v k es w) (after b v k es' w').
Proof.
  intros [Hs Ht]. split.
  - intros b0. pose proof (Hs R1_RELAY) as H1. pose proof (Hs R2_RELAY) as H2.
    pose proof (Hs R3_RELAY) as H3. cbn in H1, H2, H3.
    destruct b, b0; cbn; congruence.
  - cbn. congruence.
Qed.

(** The same call in two worlds with the same globals: same outcome, same
    effects, same globals afterwards. *)
Lemma call_same_globals (fl : Flags) (env : Env) (b : Relay) (channel : Button)
    (w w' : World) :
  same_globals w w' ->
  exists o es,
    fst (gpio_event_detected fl env b channel w) = o /\
    fst (gpio_event_detected fl env b channel w') = o /\
    trace (snd (gpio_event_detected fl env b channel w)) = trace w ++ es /\
    trace (snd (gpio_event_detected fl env b channel w')) = trace w' ++ es /\
    Forall (fun e => from_handler e = true) es /\
    same_globals (snd (gpio_event_detected fl env b channel w))
                 (snd (gpio_event_detected fl env b channel w')).
Proof.
  intros H. pose proof H as [Hs Ht]. rewrite !handler_transition.
  unfold transition, transition_request, leds_for, event_line.
  rewrite <- (Hs b), <- Ht.
  repeat match goal with
         | |- context [if ?c then _ else _] => destruct c
         | |- context [match sns_publish ?e ?rq with _ => _ end] =>
             destruct (sns_publish e rq)
         end;
    do 2 eexists; cbn [fst snd];
    (split; [reflexivity |]); (split; [reflexivity |]);
    (split; [reflexivity |]); (split; [reflexivity |]);
    (split; [repeat constructor | apply same_globals_after; exact H]).
Qed.

Lemma run_same_globals (fl : Flags) (env : Env) (edges : list (Relay * Z)) :
  forall w w',
    same_globals w w' ->
    exists es,
      fst (observe_all fl env edges w) = fst (observe_all fl env edges w') /\
      trace (snd (observe_all fl env edges w)) = trace w ++ es /\
      trace (snd (observe_all fl env edges w')) = trace w' ++ es /\
      Forall (fun e => from_handler e = true) es /\
      same_globals (snd (observe_all fl env edges w))
                   (snd (observe_all fl env edges w')).
Proof.
  induction edges as [|[b level] rest IH]; intros w w' H.
  - exists []. cbn. rewrite !app_nil_r. auto.
  - cbn [observe_all fst snd].
    destruct (call_same_globals fl env b (button_of b level) w w' H)
      as (o & es1 & Ho & Ho' & Ht & Ht' & Hf & Hg).
    destruct (IH _ _ Hg) as (es2 & Hos & Ht2 & Ht2' & Hf2 & Hg2).
    exists (es1 ++ es2).
    rewrite Ho, Ho', Hos, Ht2, Ht2', Ht, Ht', <- !app_assoc.
    repeat split; try reflexivity; [apply Forall_app; auto | apply Hg2 | apply Hg2].
Qed.

Lemma fire_as_run (fl : Flags) (env : Env) (edges : list (Relay * Z)) :
  forall w,
    fire fl env edges w
    = snd (observe_all fl env (filter (fun e => enabled (fst e)) edges) w).
Proof.
  induction edges as [|[b level] rest IH]; intros w; [reflexivity |].
  cbn [fire filter fst]. destruct b; cbn [callback enabled R1_ENABLED R2_ENABLED R3_ENABLED];
    cbn [observe_all snd]; apply IH.
Qed.

Lemma main_result (fl : Flags) (env : Env) (level1 level2 level3 : Z)
    (edges : list (Relay * Z)) (ending : exn + unit) :
  exists w1 w2,
    gpio_event_detected fl env R1_RELAY (button_of R1_RELAY level1)
      (extend [Stdout (TextLine (PROJECT ++ " v1.4"));
               Stdout (HeaderLine "Runtime Environment");
               Stdout (HeaderLine "NOTICE");
               Stdout (HeaderLine "System Status");
               Stdout (TextLine ("[+] Checking " ++ R1_NAME
                                 ++ " for current state..."))]
         initial_world) = (inr tt, w1) /\
    gpio_event_detected fl env R2_RELAY (button_of R2_RELAY level2)
      (extend [Stdout (TextLine ("[+] Checking " ++ R2_NAME
                                 ++ " for current state..."))] w1)
    = (inr tt, w2) /\
    let w3 :=
      fire fl env edges
        (extend [Stdout (TextLine ""); Stdout (HeaderLine "Monitoring")] w2) in
    main fl env level1 level2 level3 edges ending initial_world
    = (main_outcome ending,
       extend (main_tail_events env ending w3) (after_except env ending w3)).
Proof.
  unfold main, header, print, close.
  cbn [R1_ENABLED R2_ENABLED R3_ENABLED].
  rewrite !bind_emit_extend, !bind_assoc, !bind_emit_extend, !extend_extend.
  cbn [app].
  match goal with
  | |- context [bind (r1_gpio_event_detected fl env ?c) ?k ?W] =>
      destruct (startup_call fl env R1_RELAY c W eq_refl) as (w1 & E1 & _ & F1);
      cbn [gpio_event_detected] in E1; rewrite (bind_inr _ _ _ k _ _ _ E1)
  end.
  exists w1.
  pose proof (F1 R2_RELAY ltac:(discriminate)) as S2. rewrite LAST_extend in S2.
  rewrite !bind_assoc, !bind_emit_extend.
  match goal with
  | |- context [bind (r2_gpio_event_detected fl env ?c) ?k ?W] =>
      destruct (startup_call fl env R2_RELAY c W) as (w2 & E2 & _ & F2);
      [ rewrite LAST_extend; exact S2 |];
      cbn [gpio_event_detected] in E2; rewrite (bind_inr _ _ _ k _ _ _ E2)
  end.
  exists w2.
  split; [exact E1 |]. split; [exact E2 |].
  unfold pass at 1. rewrite (bind_inr _ _ (ret tt) _ _ _ _ eq_refl).
  clear. cbv zeta.
  unfold bind at 1, try_except_finally.
  rewrite !bind_emit_extend, !extend_extend. cbn [app]. unfold signal_pause.
  set (w3 := fire fl env edges _).
  destruct ending as [[| | ex] | []]; cbv beta iota zeta;
    rewrite ?bind_now; cbv beta;
    rewrite ?emit_extend; cbn [fst snd];
    rewrite ?bind_emit_extend, ?emit_extend; cbv beta iota;
    rewrite ?bind_emit_extend, ?emit_extend; cbv beta iota;
    rewrite ?extend_extend; cbn [app main_outcome main_tail_events after_except];
    reflexivity.
Qed.

Lemma filter_from_handler_tail (env : Env) (ending : exn + unit) (w : World) :
  filter from_handler (main_tail_events env ending w) = [].
Proof. destruct ending as [[| | ex] | []]; reflexivity. Qed.

Lemma filter_id (A : Type) (f : A -> bool) (l : list A) :
  Forall (fun x => f x = true) l -> filter f l = l.
Proof.
  induction 1 as [|x l Hx Hl IH]; cbn; [reflexivity |].
  rewrite Hx, IH. reflexivity.
Qed.

Lemma same_globals_refl (w : World) : same_globals w w.
Proof. split; reflexivity. Qed.

Lemma same_globals_sym (w w' : World) : same_globals w w' -> same_globals w' w.
Proof. intros [Hs Ht]. split; [intros b; symmetry; apply Hs | symmetry; exact Ht]. Qed.

Lemma seen_eq (level1 level2 level3 : Z) (edges : list (Relay * Z)) :
  seen level1 level2 level3 edges
  = (R1_RELAY, level1) :: (R2_RELAY, level2)
    :: filter (fun e => enabled (fst e)) edges.
Proof. reflexivity. Qed.

(** [main] processes its readings as the run [seen] does: same handler
    effects in the same order, same stored states. *)
Lemma main_simulates_run (fl : Flags) (env : Env) (level1 level2 level3 : Z)
    (edges : list (Relay * Z)) (ending : exn + unit) :
  exists es_main es_run,
    trace (snd (main fl env level1 level2 level3 edges ending initial_world))
    = trace initial_world ++ es_main /\
    trace (snd (observe_all fl env (seen level1 level2 level3 edges) initial_world))
    = trace initial_world ++ es_run /\
    filter from_handler es_main = es_run /\
    Forall (fun e => from_handler e = true) es_run /\
    forall b,
      LAST_STATE b (snd (main fl env level1 level2 level3 edges ending initial_world))
      = LAST_STATE b
          (snd (observe_all fl env (seen level1 level2 level3 edges) initial_world)).
Proof.
  destruct (main_result fl env level1 level2 level3 edges ending)
    as (w1 & w2 & E1 & E2 & Em).
  cbv zeta in Em. rewrite Em. clear Em. cbn [snd].
  rewrite seen_eq. cbn [observe_all fst snd].
  (* relay 1 *)
  match type of E1 with
  | gpio_event_detected _ _ _ _ (extend ?ls _) = _ =>
      pose proof (same_globals_extend ls _ _ (same_globals_refl initial_world)) as G0;
      set (ls1 := ls) in *
  end.
  destruct (call_same_globals fl env R1_RELAY (button_of R1_RELAY level1) _ _ G0)
    as (o1 & es1 & _ & _ & Ht1 & Ht1' & Hf1 & G1).
  rewrite E1 in Ht1, G1. cbn [snd] in Ht1, G1.
  set (r1 := snd (gpio_event_detected fl env R1_RELAY (button_of R1_RELAY level1)
                    initial_world)) in *.
  (* relay 2 *)
  match type of E2 with
  | gpio_event_detected _ _ _ _ (extend ?ls _) = _ =>
      pose proof (same_globals_extend ls _ _ G1) as G1';
      set (ls2 := ls) in *
  end.
  destruct (call_same_globals fl env R2_RELAY (button_of R2_RELAY level2) _ _ G1')
    as (o2 & es2 & _ & _ & Ht2 & Ht2' & Hf2 & G2).
  rewrite E2 in Ht2, G2. cbn [snd] in Ht2, G2.
  set (r2 := snd (gpio_event_detected fl env R2_RELAY (button_of R2_RELAY level2) r1)) in *.
  (* the edges *)
  rewrite fire_as_run.
  set (ls3 := [Stdout (TextLine ""); Stdout (HeaderLine "Monitoring")]).
  pose proof (same_globals_extend ls3 _ _ G2) as G2'.
  destruct (run_same_globals fl env (filter (fun e => enabled (fst e)) edges) _ _ G2')
    as (es3 & _ & Ht3 & Ht3' & Hf3 & G3).
  set (m3 := snd (observe_all fl env _ (extend ls3 w2))) in *.
  set (r3 := snd (observe_all fl env _ r2)) in *.
  exists (ls1 ++ es1 ++ ls2 ++ es2 ++ ls3 ++ es3 ++ main_tail_events env ending m3),
         (es1 ++ es2 ++ es3).
  split.
  { destruct ending as [[| | ex] | []]; cbn [after_except extend trace snd now];
      rewrite Ht3; cbn [extend trace]; rewrite Ht2; cbn [extend trace];
      rewrite Ht1; cbn [extend trace]; rewrite <- !app_assoc; reflexivity. }
  split.
  { rewrite Ht3', Ht2', Ht1', <- !app_assoc. reflexivity. }
  split.
  { rewrite !filter_app, filter_from_handler_tail, app_nil_r.
    rewrite (filter_id _ _ _ Hf1), (filter_id _ _ _ Hf2), (filter_id _ _ _ Hf3).
    reflexivity. }
  split.
  { repeat (apply Forall_app; split); assumption. }
  intros b. rewrite LAST_extend.
  destruct G3 as [Hs3 _].
  destruct ending as [[| | ex] | []]; cbn [after_except];
    try (rewrite <- Hs3; destruct b; reflexivity); apply Hs3.
Qed.

Lemma led_writes_from_handler (es : list Effect) :
  led_writes (filter from_handler es) = led_writes es.
Proof.
  induction es as [|e es IH]; [reflexivity |].
  destruct e as [[] | | | |]; cbn; rewrite ?IH; reflexivity.
Qed.

Lemma dispatched_from_handler (es : list Effect) :
  dispatched (filter from_handler es) = dispatched es.
Proof.
  induction es as [|e es IH]; [reflexivity |].
  destruct e as [[] | | | |]; cbn; rewrite ?IH; reflexivity.
Qed.

Lemma published_from_handler (es : list Effect) :
  published (filter from_handler es) = published es.
Proof.
  induction es as [|e es IH]; [reflexivity |].
  destruct e as [[] | | | |]; cbn; rewrite ?IH; reflexivity.
Qed.

Lemma levels_of_enabled (b : Relay) (edges : list (Relay * Z)) :
  levels_of b (filter (fun e => enabled (fst e)) edges)
  = if enabled b then levels_of b edges else [].
Proof.
  induction edges as [|[b0 level] rest IH]; [destruct (enabled b); reflexivity |].
  cbn [filter fst]. destruct (enabled b0) eqn:E0.
  - rewrite !levels_of_cons, IH.
    destruct (Relay_eqb b0 b) eqn:Eb; [| reflexivity].
    apply Relay_eqb_eq in Eb. subst b0. rewrite E0. reflexivity.
  - rewrite levels_of_cons, IH.
    destruct (Relay_eqb b0 b) eqn:Eb; [| reflexivity].
    apply Relay_eqb_eq in Eb. subst b0. rewrite E0. reflexivity.
Qed.

Lemma levels_of_seen (b : Relay) (level1 level2 level3 : Z)
    (edges : list (Relay * Z)) :
  levels_of b (seen level1 level2 level3 edges)
  = match b with
    | R1_RELAY => level1 :: levels_of R1_RELAY edges
    | R2_RELAY => level2 :: levels_of R2_RELAY edges
    | R3_RELAY => []
    end.
Proof.
  rewrite seen_eq, !levels_of_cons, levels_of_enabled.
  destruct b; reflexivity.
Qed.

(** A run without readings on [b] shows nothing of [b]. *)
Lemma run_untouched (fl : Flags) (env : Env) (b : Relay)
    (edges : list (Relay * Z)) :
  levels_of b edges = [] ->
  forall w,
    exists es,
      trace (snd (observe_all fl env edges w)) = trace w ++ es /\
      LAST_STATE b (snd (observe_all fl env edges w)) = LAST_STATE b w /\
      alerts_for b es = [].
Proof.
  induction edges as [|[b0 level] rest IH]; intros Hl w.
  - exists []. cbn. rewrite app_nil_r. auto.
  - rewrite levels_of_cons in Hl.
    destruct (Relay_eqb b0 b) eqn:Eb; [discriminate Hl |].
    cbn [observe_all fst snd].
    destruct (call_projection fl env b0 b (button_of b0 level) w)
      as (es1 & Ht1 & _ & Ha1 & Hs1).
    rewrite Eb in Ha1. cbn [andb] in Ha1.
    assert (Nb : b <> b0).
    { intros ->. rewrite Relay_eqb_refl in Eb. discriminate. }
    destruct (IH Hl (snd (gpio_event_detected fl env b0 (button_of b0 level) w)))
      as (es2 & Ht2 & Hs2 & Ha2).
    exists (es1 ++ es2). rewrite Ht2, Ht1, <- app_assoc, Hs2, (Hs1 Nb).
    rewrite alerts_for_app, Ha1, Ha2. auto.
Qed.

Lemma last_snoc (A : Type) (x y : list A) (a d : A) :
  last (x ++ y ++ [a]) d = a.
Proof. rewrite app_assoc. apply last_last. Qed.

(** X9. [main] returns normally when [signal.pause()] returns or
    ends in Ctrl-C or in an [Exception], and then "Mission Complete!!" is
    the last thing it does; a [SystemExit] leaves [main] as such, after
    the cleanup, the closing of the green LED of relay 2 being the last
    effect. *)
Theorem main_outcome_and_last_event (fl : Flags) (env : Env)
    (level1 level2 level3 : Z) (edges : list (Relay * Z)) (ending : exn + unit)
    (d : Effect) :
  let r := main fl env level1 level2 level3 edges ending initial_world in
  match ending with
  | inl SystemExit =>
      fst r = inl SystemExit /\
      last (trace (snd r)) d = Close (LedDev R2_GREEN_LED)
  | _ =>
      fst r = inr tt /\
      last (trace (snd r)) d = Stdout (TextLine "Mission Complete!!")
  end.
Proof.
  intros r. subst r.
  destruct (main_result fl env level1 level2 level3 edges ending)
    as (w1 & w2 & _ & _ & Em).
  cbv zeta in Em. rewrite Em. clear Em. cbn [fst snd extend trace].
  destruct ending as [[| | ex] | []]; cbn [main_outcome main_tail_events];
    (split; [reflexivity |]);
    match goal with
    | |- last (?x ++ ?tail) d = ?a =>
        change tail with (removelast tail ++ [a]); apply last_snoc
    end.
Qed.


(** X11. With [R3_ENABLED] off, [main] never observes relay 3,
    whatever is read and whatever edges occur: its stored state is still
    2 at the end, no LED of relay 3 is written after module load and no
    alert is dispatched in its name. *)
Theorem main_never_touches_relay3 (fl : Flags) (env : Env)
    (level1 level2 level3 : Z) (edges : list (Relay * Z)) (ending : exn + unit) :
  let wm := snd (main fl env level1 level2 level3 edges ending initial_world) in
  R3_LAST_STATE wm = 2 /\
  led_writes_of R3_RELAY (since initial_world wm) = [] /\
  alerts_for R3_RELAY (since initial_world wm) = [].
Proof.
  intros wm. subst wm.
  destruct (main_simulates_run fl env level1 level2 level3 edges ending)
    as (em & er & Hm & Hr & Hf & _ & Hs).
  rewrite (since_extends _ _ _ Hm).
  assert (L3 : levels_of R3_RELAY (seen level1 level2 level3 edges) = [])
    by apply (levels_of_seen R3_RELAY).
  destruct (run_untouched fl env R3_RELAY _ L3 initial_world)
    as (es & Ht & Hst & Ha).
  destruct (run_led_writes fl env R3_RELAY (seen level1 level2 level3 edges)
              initial_world) as (es' & Ht' & Hl).
  rewrite Hr in Ht, Ht'. apply app_inv_head in Ht, Ht'. subst es es'.
  rewrite L3 in Hl. cbn [flat_map] in Hl.
  split; [| split].
  - change (LAST_STATE R3_RELAY
              (snd (main fl env level1 level2 level3 edges ending initial_world)) = 2).
    rewrite Hs, Hst. reflexivity.
  - unfold led_writes_of in *. rewrite <- led_writes_from_handler, Hf. exact Hl.
  - unfold alerts_for in *. rewrite <- dispatched_from_handler, Hf. exact Ha.
Qed.

(** X12. When every dispatch returns, the alerts [main] dispatches for
    relays 1 and 2 are those of [debounce] from the uninitialised state on
    the start-up reading followed by the relay's edges (so the start-up
    reading itself never alerts), and each stored state ends at the last
    reading that was 0 or 1. *)
Theorem main_alerts_are_debounced (fl : Flags) (env : Env)
    (level1 level2 level3 : Z) (edges : list (Relay * Z)) (ending : exn + unit) :
  dispatch_returns fl env ->
  let wm := snd (main fl env level1 level2 level3 edges ending initial_world) in
  alerts_for R1_RELAY (since initial_world wm)
  = debounce Initializing (level1 :: levels_of R1_RELAY edges) /\
  alerts_for R2_RELAY (since initial_world wm)
  = debounce Initializing (level2 :: levels_of R2_RELAY edges) /\
  R1_LAST_STATE wm
  = match last_valid (level1 :: levels_of R1_RELAY edges) with
    | Some level => level
    | None => Initializing
    end /\
  R2_LAST_STATE wm
  = match last_valid (level2 :: levels_of R2_RELAY edges) with
    | Some level => level
    | None => Initializing
    end.
Proof.
  intros Hok wm. subst wm.
  destruct (main_simulates_run fl env level1 level2 level3 edges ending)
    as (em & er & Hm & Hr & Hf & _ & Hs).
  rewrite (since_extends _ _ _ Hm).
  assert (P : forall b,
             alerts_for b em
             = debounce Initializing (levels_of b (seen level1 level2 level3 edges)) /\
             LAST_STATE b
               (snd (main fl env level1 level2 level3 edges ending initial_world))
             = match last_valid (levels_of b (seen level1 level2 level3 edges)) with
               | Some level => level
               | None => Initializing
               end).
  { intros b.
    assert (R0 : in_range (LAST_STATE b initial_world)) by (left; destruct b; reflexivity).
    destruct (run_projection fl env b (seen level1 level2 level3 edges) Hok
                initial_world R0) as (es & Ht & _ & Hst & Ha).
    rewrite Hr in Ht. apply app_inv_head in Ht. subst es.
    split.
    - unfold alerts_for in *. rewrite <- dispatched_from_handler, Hf.
      rewrite Ha. destruct b; reflexivity.
    - rewrite Hs, Hst, settle_last_valid. destruct b; reflexivity. }
  destruct (P R1_RELAY) as (A1 & S1). destruct (P R2_RELAY) as (A2 & S2).
  rewrite levels_of_seen in A1, A2, S1, S2.
  repeat split; assumption.
Qed.

Lemma dispatch_returns_env_ok : dispatch_returns source_flags env_ok.
Proof. intros _ rq. exists 200. reflexivity. Qed.

Lemma in_range_initial (b : Relay) : in_range (LAST_STATE b initial_world).
Proof. left. destruct b; reflexivity. Qed.

Lemma run_state_is_last_valid_level_witness :
  dispatch_returns source_flags env_ok /\
  in_range (LAST_STATE R1_RELAY initial_world) /\
  LAST_STATE R1_RELAY
    (snd (observe_all source_flags env_ok
            [(R1_RELAY, 1); (R2_RELAY, 0); (R1_RELAY, 0); (R1_RELAY, 7)]
            initial_world)) = 0.
Proof.
  split; [exact dispatch_returns_env_ok |].
  split; [exact (in_range_initial R1_RELAY) |].
  exact (proj2 (run_state_is_last_valid_level source_flags env_ok R1_RELAY
                  [(R1_RELAY, 1); (R2_RELAY, 0); (R1_RELAY, 0); (R1_RELAY, 7)]
                  initial_world dispatch_returns_env_ok
                  (in_range_initial R1_RELAY))).
Defined.

Lemma run_alerts_are_debounced_witness :
  dispatch_returns source_flags env_ok /\
  in_range (LAST_STATE R1_RELAY initial_world) /\
  alerts_for R1_RELAY
    (since initial_world
       (snd (observe_all source_flags env_ok
               [(R1_RELAY, 0); (R2_RELAY, 1); (R1_RELAY, 1); (R1_RELAY, 1);
                (R2_RELAY, 0); (R1_RELAY, 0)]
               initial_world)))
  = ["Failure"%string; "Success"%string].
Proof.
  split; [exact dispatch_returns_env_ok |].
  split; [exact (in_range_initial R1_RELAY) |].
  exact (run_alerts_are_debounced source_flags env_ok R1_RELAY
           [(R1_RELAY, 0); (R2_RELAY, 1); (R1_RELAY, 1); (R1_RELAY, 1);
            (R2_RELAY, 0); (R1_RELAY, 0)]
           initial_world dispatch_returns_env_ok (in_range_initial R1_RELAY)).
Defined.

Lemma run_alerts_alternate_witness :
  dispatch_returns source_flags env_ok /\
  in_range (LAST_STATE R2_RELAY initial_world) /\
  alternating
    (alerts_for R2_RELAY
       (since initial_world
          (snd (observe_all source_flags env_ok
                  [(R2_RELAY, 1); (R2_RELAY, 0); (R1_RELAY, 1); (R2_RELAY, 1)]
                  initial_world)))).
Proof.
  split; [exact dispatch_returns_env_ok |].
  split; [exact (in_range_initial R2_RELAY) |].
  exact (proj1 (run_alerts_alternate source_flags env_ok R2_RELAY
                  [(R2_RELAY, 1); (R2_RELAY, 0); (R1_RELAY, 1); (R2_RELAY, 1)]
                  initial_world dispatch_returns_env_ok
                  (in_range_initial R2_RELAY))).
Defined.

Lemma main_alerts_are_debounced_witness :
  dispatch_returns source_flags env_ok /\
  alerts_for R1_RELAY
    (since initial_world
       (snd (main source_flags env_ok 0 0 0
               [(R1_RELAY, 1); (R3_RELAY, 1); (R1_RELAY, 1); (R1_RELAY, 0)]
               (inl KeyboardInterrupt) initial_world)))
  = ["Failure"%string; "Success"%string].
Proof.
  split; [exact dispatch_returns_env_ok |].
  exact (proj1 (main_alerts_are_debounced source_flags env_ok 0 0 0
                  [(R1_RELAY, 1); (R3_RELAY, 1); (R1_RELAY, 1); (R1_RELAY, 0)]
                  (inl KeyboardInterrupt) dispatch_returns_env_ok)).
Defined.

(** ** [remove_old_data] *)

Lemma filter_filter (A : Type) (f g : A -> bool) (l : list A) :
  filter f (filter g l) = filter (fun x => g x && f x)%bool l.
Proof.
  induction l as [|a l IH]; [reflexivity |].
  cbn. destruct (g a); cbn; [destruct (f a) |]; rewrite IH; reflexivity.
Qed.

Lemma isfile_In {F : Type} (d : Disk F) (e : string * F) :
  In e d -> isfile (fst e) d = true.
Proof.
  intros H. unfold isfile. apply existsb_exists. exists e.
  split; [exact H | apply String.eqb_refl].
Qed.

Lemma getmtime_isfile {F : Type} (p : string) (d : Disk F) :
  isfile p d = true -> exists m, getmtime p d = inr m.
Proof.
  unfold isfile, getmtime. induction d as [|e d IH]; cbn; [discriminate |].
  destruct (String.eqb (fst e) p); cbn; [eexists; reflexivity | exact IH].
Qed.

(** Removing another path changes neither the time nor the presence of
    this one. *)
Lemma getmtime_remove_other {F : Type} (p q : string) (d : Disk F) :
  String.eqb q p = false ->
  getmtime q (filter (fun e => negb (String.eqb (fst e) p)) d) = getmtime q d.
Proof.
  intros N. unfold getmtime. induction d as [|e d IH]; [reflexivity |].
  cbn. destruct (String.eqb (fst e) p) eqn:Ep; cbn.
  - apply String.eqb_eq in Ep.
    destruct (String.eqb (fst e) q) eqn:Eq; [| exact IH].
    apply String.eqb_eq in Eq. rewrite <- Ep, <- Eq, String.eqb_refl in N.
    discriminate.
  - destruct (String.eqb (fst e) q); [reflexivity | exact IH].
Qed.

(** One file: it goes exactly when it is a file, old and removable; an
    [os.remove] that raises is reported and the sweep goes on. *)
Lemma sweep_file_spec {F : Type} (fenv : FsEnv F) (dir_name : string)
    (days_back : Z) (curr_dir file_name : string) (d : Disk F) (out : list Line) :
  let p := os_path_join curr_dir file_name in
  exists lines,
    sweep_file fenv dir_name days_back (purge_time_of fenv days_back)
      curr_dir file_name (d, out)
    = (inr tt, (expunge fenv days_back d p, out ++ lines)) /\
    (forall msg,
       isfile p d = true -> old fenv days_back p d = true ->
       remove_error fenv p = Some msg ->
       In (TextLine ("[-] " ++ msg)) lines) /\
    ((isfile p d && old fenv days_back p d)%bool = false -> lines = []).
Proof.
  intros p. unfold sweep_file, expunge, doomed, old, removable, os_remove. fold p.
  cbn [fst snd].
  destruct (isfile p d) eqn:Hf; cbn [andb].
  - destruct (getmtime_isfile p d Hf) as [m Hm]. rewrite Hm.
    destruct (float_lt fenv m (purge_time_of fenv days_back)); cbn [andb].
    + destruct (remove_error fenv p) as [msg |].
      * eexists. split; [rewrite <- app_assoc; reflexivity |].
        split; [| discriminate].
        intros msg' _ _ E. injection E as <-. cbn. auto.
      * eexists. split; [rewrite <- app_assoc; reflexivity |].
        split; [| discriminate].
        intros msg' _ _ E. discriminate E.
    + exists []. rewrite app_nil_r. split; [reflexivity |].
      split; [| reflexivity]. intros msg _ E. discriminate E.
  - exists []. rewrite app_nil_r. split; [reflexivity |].
    split; [| reflexivity]. intros msg E. discriminate E.
Qed.

Lemma expunge_idle {F : Type} (fenv : FsEnv F) (days_back : Z) (d : Disk F)
    (p : string) :
  (isfile p d && old fenv days_back p d)%bool = false ->
  expunge fenv days_back d p = d.
Proof. intros H. unfold expunge, doomed. rewrite H. reflexivity. Qed.

Lemma isfile_getmtime {F : Type} (p : string) (d : Disk F) :
  isfile p d = match getmtime p d with inr _ => true | inl _ => false end.
Proof.
  unfold isfile, getmtime. induction d as [|e d IH]; [reflexivity |].
  cbn. destruct (String.eqb (fst e) p); [reflexivity | exact IH].
Qed.

Lemma expunge_keeps_other {F : Type} (fenv : FsEnv F) (days_back : Z)
    (d : Disk F) (p q : string) :
  String.eqb q p = false \/ removable fenv q = false ->
  getmtime q (expunge fenv days_back d p) = getmtime q d.
Proof.
  intros H. unfold expunge. destruct (doomed fenv days_back p d) eqn:D; [| reflexivity].
  destruct (String.eqb q p) eqn:E.
  - destruct H as [H | H]; [discriminate |].
    apply String.eqb_eq in E. subst q.
    unfold doomed in D. rewrite H, andb_false_r in D. discriminate.
  - apply getmtime_remove_other. exact E.
Qed.

Lemma sweep_files_spec {F : Type} (fenv : FsEnv F) (dir_name : string)
    (days_back : Z) (curr_dir : string) (files : list string) :
  forall (d : Disk F) (out : list Line),
  exists lines,
    sweep_files fenv dir_name days_back (purge_time_of fenv days_back)
      curr_dir files (d, out)
    = (inr tt,
       (fold_left (expunge fenv days_back) (map (os_path_join curr_dir) files) d,
        out ++ lines)) /\
    (forall p msg,
       In p (map (os_path_join curr_dir) files) ->
       isfile p d = true -> old fenv days_back p d = true ->
       remove_error fenv p = Some msg ->
       In (TextLine ("[-] " ++ msg)) lines) /\
    ((forall p, In p (map (os_path_join curr_dir) files) ->
                (isfile p d && old fenv days_back p d)%bool = false) ->
     lines = []).
Proof.
  induction files as [|f rest IH]; intros d out.
  - exists []. rewrite app_nil_r. split; [reflexivity |].
    split; [intros p msg [] | reflexivity].
  - cbn [sweep_files map fold_left].
    destruct (sweep_file_spec fenv dir_name days_back curr_dir f d out)
      as (l1 & E1 & R1 & Q1).
    cbv zeta in E1, R1, Q1. rewrite E1.
    destruct (IH (expunge fenv days_back d (os_path_join curr_dir f)) (out ++ l1))
      as (l2 & E2 & R2 & Q2).
    rewrite E2. exists (l1 ++ l2). rewrite app_assoc. split; [reflexivity |].
    split.
    + intros p msg [Hp | Hp] Hf Ho Hr; apply in_or_app.
      * subst p. left. apply (R1 msg); assumption.
      * right. apply (R2 p msg Hp); [| | exact Hr].
        -- rewrite isfile_getmtime, expunge_keeps_other, <- isfile_getmtime;
             [exact Hf |].
           right. unfold removable. rewrite Hr. reflexivity.
        -- unfold old. rewrite expunge_keeps_other; [exact Ho |].
           right. unfold removable. rewrite Hr. reflexivity.
    + intros Hidle.
      assert (H0 := Hidle _ (or_introl eq_refl)).
      rewrite (Q1 H0). rewrite (expunge_idle _ _ _ _ H0) in Q2.
      rewrite Q2; [reflexivity |]. intros p Hp. apply Hidle. right. exact Hp.
Qed.

Lemma fold_expunge_idle {F : Type} (fenv : FsEnv F) (days_back : Z)
    (paths : list string) (d : Disk F) :
  (forall p, In p paths -> (isfile p d && old fenv days_back p d)%bool = false) ->
  fold_left (expunge fenv days_back) paths d = d.
Proof.
  induction paths as [|p rest IH]; intros H; [reflexivity |].
  cbn [fold_left]. rewrite (expunge_idle _ _ _ _ (H p (or_introl eq_refl))).
  apply IH. intros q Hq. apply H. right. exact Hq.
Qed.

Lemma sweep_dirs_spec {F : Type} (fenv : FsEnv F) (dir_name : string)
    (days_back : Z) (listing : list (string * list string)) :
  forall (d : Disk F) (out : list Line),
  exists lines,
    sweep_dirs fenv dir_name days_back (purge_time_of fenv days_back)
      listing (d, out)
    = (inr tt,
       (fold_left (expunge fenv days_back)
          (flat_map (fun cf => map (os_path_join (fst cf)) (snd cf)) listing) d,
        out ++ lines)) /\
    (forall p msg,
       In p (flat_map (fun cf => map (os_path_join (fst cf)) (snd cf)) listing) ->
       isfile p d = true -> old fenv days_back p d = true ->
       remove_error fenv p = Some msg ->
       In (TextLine ("[-] " ++ msg)) lines) /\
    ((forall p,
        In p (flat_map (fun cf => map (os_path_join (fst cf)) (snd cf)) listing) ->
        (isfile p d && old fenv days_back p d)%bool = false) ->
     lines = []).
Proof.
  induction listing as [|[curr_dir files] rest IH]; intros d out.
  - exists []. rewrite app_nil_r. split; [reflexivity |].
    split; [intros p msg [] | reflexivity].
  - cbn [sweep_dirs flat_map fst snd].
    destruct (sweep_files_spec fenv dir_name days_back curr_dir files d out)
      as (l1 & E1 & R1 & Q1).
    rewrite E1, fold_left_app.
    set (d1 := fold_left (expunge fenv days_back)
                 (map (os_path_join curr_dir) files) d) in *.
    destruct (IH d1 (out ++ l1)) as (l2 & E2 & R2 & Q2).
    rewrite E2. exists (l1 ++ l2). rewrite app_assoc. split; [reflexivity |].
    split.
    + intros p msg Hp Hf Ho Hr. apply in_app_or in Hp. apply in_or_app.
      destruct Hp as [Hp | Hp]; [left; apply (R1 p msg); assumption |].
      assert (K : getmtime p d1 = getmtime p d).
      { unfold d1. clear -Hr. revert d.
        induction (map (os_path_join curr_dir) files) as [|q qs IHq]; intros d;
          [reflexivity |].
        cbn [fold_left]. rewrite IHq. apply expunge_keeps_other.
        right. unfold removable. rewrite Hr. reflexivity. }
      right. apply (R2 p msg Hp); [| | exact Hr].
      * rewrite isfile_getmtime, K, <- isfile_getmtime. exact Hf.
      * unfold old. rewrite K. exact Ho.
    + intros Hidle.
      assert (H1 : forall p, In p (map (os_path_join curr_dir) files) ->
                   (isfile p d && old fenv days_back p d)%bool = false).
      { intros p Hp. apply Hidle. apply in_or_app. left. exact Hp. }
      rewrite (Q1 H1).
      assert (D1 : d1 = d) by (apply fold_expunge_idle; exact H1).
      rewrite D1 in Q2. rewrite Q2; [reflexivity |].
      intros p Hp. apply Hidle. apply in_or_app. right. exact Hp.
Qed.

(** The disk after the visits: the entries of the paths that were
    visited, old and removable are gone, the others stand as they were. *)
Lemma expunge_all {F : Type} (fenv : FsEnv F) (days_back : Z) (paths : list string) :
  forall d : Disk F,
    fold_left (expunge fenv days_back) paths d
    = filter (fun e => negb (listed paths (fst e)
                             && old fenv days_back (fst e) d
                             && removable fenv (fst e)))%bool d.
Proof.
  induction paths as [|p rest IH]; intros d.
  - cbn. symmetry. apply (filter_id _ _ d). apply Forall_forall. auto.
  - cbn [fold_left]. rewrite IH. unfold expunge at 1 2.
    destruct (doomed fenv days_back p d) eqn:D.
    + unfold doomed in D. apply andb_true_iff in D. destruct D as [D Hrm].
      apply andb_true_iff in D. destruct D as [Hf Ho].
      rewrite filter_filter. apply filter_ext_in. intros e He.
      cbn [listed existsb]. destruct (String.eqb (fst e) p) eqn:E.
      * apply String.eqb_eq in E. rewrite E, Ho, Hrm. reflexivity.
      * cbn [negb andb orb]. unfold old.
        rewrite getmtime_remove_other by exact E. reflexivity.
    + apply filter_ext_in. intros e He.
      cbn [listed existsb]. destruct (String.eqb (fst e) p) eqn:E; [| reflexivity].
      apply String.eqb_eq in E.
      unfold doomed in D. rewrite <- E, (isfile_In d e He) in D. cbn [andb] in D.
      cbn [orb andb]. rewrite E in *.
      destruct (old fenv days_back p d), (removable fenv p); cbn in *;
        try discriminate; rewrite ?andb_false_r; reflexivity.
Qed.

Lemma listed_In (paths : list string) (p : string) :
  listed paths p = true <-> In p paths.
Proof.
  unfold listed. rewrite existsb_exists. split.
  - intros (q & Hq & E). apply String.eqb_eq in E. subst q. exact Hq.
  - intros H. exists p. split; [exact H | apply String.eqb_refl].
Qed.

(** The whole sweep. *)
Lemma remove_old_data_spec {F : Type} (fenv : FsEnv F) (dir_name : string)
    (days_back : Z) (d : Disk F) :
  exists lines,
    remove_old_data fenv dir_name days_back d
    = (inr tt,
       (filter (fun e => negb (listed (walked fenv dir_name) (fst e)
                               && old fenv days_back (fst e) d
                               && removable fenv (fst e)))%bool d,
        lines)) /\
    (forall p msg,
       In p (walked fenv dir_name) ->
       isfile p d = true -> old fenv days_back p d = true ->
       remove_error fenv p = Some msg ->
       In (TextLine ("[-] " ++ msg)) lines) /\
    ((forall p, In p (walked fenv dir_name) ->
                (isfile p d && old fenv days_back p d)%bool = false) ->
     lines = []).
Proof.
  unfold remove_old_data.
  destruct (sweep_dirs_spec fenv dir_name days_back (os_walk fenv dir_name) d [])
    as (lines & E & R & Q).
  exists lines. unfold purge_time_of in E. rewrite E, expunge_all.
  split; [reflexivity |]. split; assumption.
Qed.

Example remove_old_data_example :
  remove_old_data fenv_example "log" 180 disk_example
  = (inr tt,
     ([("log/b.log", 1600000000); ("log/c.log", 1699999999);
       ("etc/old.cfg", 1500000000)],
      [TextLine "[+] Expunge log data older than 180 days...";
       TextLine "[+] Deleted log/a.log";
       TextLine "[+] Expunge log data older than 180 days...";
       TextLine "[-] PermissionError"])).
Proof. reflexivity. Qed.

Example os_path_join_examples :
  os_path_join "log" "a.log" = "log/a.log"%string /\
  os_path_join "log/" "a.log" = "log/a.log"%string /\
  os_path_join "" "a.log" = "a.log"%string /\
  os_path_join "log" "/tmp/a.log" = "/tmp/a.log"%string.
Proof. repeat split; reflexivity. Qed.


(** X14. [remove_old_data] creates and changes no file, and whatever
    is gone afterwards was among the paths walked, had a modification time
    below the purge time and was removable. *)
Theorem sweep_only_removes_old_listed_files {F : Type} (fenv : FsEnv F)
    (dir_name : string) (days_back : Z) (d : Disk F) :
  let d' := fst (snd (remove_old_data fenv dir_name days_back d)) in
  (forall e, In e d' -> In e d) /\
  (forall e,
     In e d -> ~ In e d' ->
     In (fst e) (walked fenv dir_name) /\
     old fenv days_back (fst e) d = true /\
     remove_error fenv (fst e) = None).
Proof.
  intros d'. subst d'.
  destruct (remove_old_data_spec fenv dir_name days_back d) as (lines & E & _).
  rewrite E. cbn [fst snd]. split.
  - intros e He. apply filter_In in He. apply He.
  - intros e He Hn.
    destruct (listed (walked fenv dir_name) (fst e)) eqn:L;
      [| exfalso; apply Hn, filter_In; rewrite L; auto].
    destruct (old fenv days_back (fst e) d) eqn:O;
      [| exfalso; apply Hn, filter_In; rewrite L, O; auto].
    unfold removable in Hn.
    destruct (remove_error fenv (fst e)) eqn:R;
      [exfalso; apply Hn, filter_In; rewrite L, O; unfold removable; rewrite R; auto |].
    apply listed_In in L. auto.
Qed.







(** ** [header] *)

Example header_text_example :
  header_text "Monitoring"
  = "[+] --- Monitoring ------------------------------------------------------------"%string.
Proof. reflexivity. Qed.



